(** * Session fork handshake and encrypted cache saga

    A shallow embedding of [requestFork], [consumeFork] and
    [getConsumeForkParameters] (packages/pass, fork handshake) and of the
    [cacheWorker] saga, with the properties the specification states about
    them. *)

From Stdlib Require Import List String Ascii Bool ZArith NArith Lia DecimalString.
From Stdlib.Strings Require Import Byte.
Import ListNotations.

(** ** JavaScript values *)

Module JS.

(** A JavaScript string is a sequence of UTF-16 code units. *)
Definition jsstring : Type := list N.

(** A string literal of the source (ASCII). *)
Definition js (s : string) : jsstring :=
  map N_of_ascii (list_ascii_of_string s).

(** The code unit of the double quote. *)
Definition dquote : jsstring := [34%N].

(** A [Uint8Array]. *)
Definition Uint8Array : Type := list byte.

(** [a === b] on strings. *)
Definition eqb (a b : jsstring) : bool :=
  if list_eq_dec N.eq_dec a b then true else false.

(** Truthiness of a string: only the empty string is falsy. *)
Definition truthy (s : jsstring) : bool :=
  match s with [] => false | _ :: _ => true end.

(** Truthiness of [T | undefined] and [v !== null] of [T | null], where a
    [T] is always truthy. *)
Definition defined {A} (o : option A) : bool :=
  match o with Some _ => true | None => false end.

(** [s || ''] for [s : string | null]. *)
Definition or_empty (o : option jsstring) : jsstring :=
  match o with Some s => if truthy s then s else [] | None => [] end.

End JS.
Import JS.

(** ** Thrown values, and a monad for calls to collaborators

    A computation reads the log of the collaborator calls made so far,
    appends to it, and either returns or throws.  A collaborator answers
    from the log, so its answer may depend on every call made before. *)

Inductive Exn : Type :=
| InvalidForkConsumeError (message : jsstring)
| Thrown (description : jsstring).

Section Effects.
Context {Ev : Type}.

Definition M (A : Type) : Type := list Ev -> (Exn + A) * list Ev.

Definition ret {A} (a : A) : M A := fun tr => (inr a, tr).

Definition throw {A} (e : Exn) : M A := fun tr => (inl e, tr).

Definition bind {A B} (m : M A) (k : A -> M B) : M B :=
  fun tr =>
    match m tr with
    | (inr a, tr') => k a tr'
    | (inl e, tr') => (inl e, tr')
    end.

(** [try { m } catch (e) { h e }] *)
Definition try_catch {A} (m : M A) (h : Exn -> M A) : M A :=
  fun tr =>
    match m tr with
    | (inr a, tr') => (inr a, tr')
    | (inl e, tr') => h e tr'
    end.

(** [await f(...)]: the collaborator answers from the history of calls;
    the call and its outcome are logged. *)
Definition perform {R} (f : list Ev -> Exn + R) (log : Exn + R -> Ev) : M R :=
  fun tr => let r := f tr in (r, tr ++ [log r]).

(** A run from an empty log: the outcome and the calls made, in order. *)
Definition run {A} (m : M A) : (Exn + A) * list Ev := m [].

End Effects.

Notation "x <- m ;; k" := (bind m (fun x => k))
  (at level 61, m at next level, right associativity).

(** ** The fork consumption protocol *)

Module Fork.

(** [version: 1 | 2] *)
Inductive Version : Type := V1 | V2.

(** The argument of [api]: the request to make. *)
Record RequestConfig : Type := {
  url : jsstring;
  method : jsstring;
  headers : list (jsstring * jsstring);
  data : list (jsstring * jsstring)
}.

(** [config.url = u] *)
Definition set_url (c : RequestConfig) (u : jsstring) : RequestConfig :=
  {| url := u; method := method c; headers := headers c; data := data c |}.

Module PullForkResponse.
Record t : Type := {
  UID : jsstring; RefreshToken : jsstring; LocalID : Z; Payload : jsstring
}.
End PullForkResponse.

Module RefreshSessionResponse.
Record t : Type := { AccessToken : jsstring; RefreshToken : jsstring }.
End RefreshSessionResponse.

Module User.
Record t : Type := { ID : jsstring }.
End User.

Module UserResponse.
Record t : Type := { User : User.t }.
End UserResponse.

Module AuthSession.
Record t : Type := {
  AccessToken : jsstring;
  keyPassword : jsstring;
  LocalID : Z;
  RefreshToken : jsstring;
  UID : jsstring;
  UserID : jsstring
}.
End AuthSession.

(** The opaque key object handed out by [getKey]. *)
Inductive CryptoKey : Type := CryptoKeyHandle (id : N).

(** The decrypted blob; its [keyPassword] may be missing. *)
Module ForkBlob.
Record t : Type := { keyPassword : option jsstring }.
End ForkBlob.

(** The type argument of [api<T>(...)]. *)
Inductive ApiKind : Type := PullFork | RefreshSession | GetUser.

Definition ApiResponse (k : ApiKind) : Type :=
  match k with
  | PullFork => PullForkResponse.t
  | RefreshSession => RefreshSessionResponse.t
  | GetUser => UserResponse.t
  end.

(** The calls [consumeFork] makes to its collaborators, with their
    outcome.  [getKey] is logged with the argument it receives at run time:
    [payload.key!] is not checked, so the argument may be undefined. *)
Inductive Event : Type :=
| EvApi (k : ApiKind) (config : RequestConfig) (result : Exn + ApiResponse k)
| EvGetKey (raw : option Uint8Array) (result : Exn + CryptoKey)
| EvGetForkDecryptedBlob (key : CryptoKey) (blob : jsstring) (version : Version)
    (result : Exn + option ForkBlob.t).

(** A network call. *)
Definition is_api (ev : Event) : bool :=
  match ev with EvApi _ _ _ => true | _ => false end.

(** A call of the key derivation or of the decryption. *)
Definition is_decryption (ev : Event) : bool :=
  match ev with EvApi _ _ _ => false | _ => true end.

(** What the call threw, when it threw. *)
Definition failure (ev : Event) : option Exn :=
  match ev with
  | EvApi _ _ (inl e) | EvGetKey _ (inl e)
  | EvGetForkDecryptedBlob _ _ _ (inl e) => Some e
  | _ => None
  end.

(** The [api] function of the options. *)
Definition Api : Type :=
  forall k, list Event -> RequestConfig -> Exn + ApiResponse k.

(** What [consumeFork] imports: the request builders, which only compute,
    and the key derivation and decryption, which may throw. *)
Record Imports : Type := {
  pullForkSession : jsstring -> RequestConfig;
  refreshTokens : jsstring -> RequestConfig;
  getUser : RequestConfig;
  withUIDHeaders : jsstring -> RequestConfig -> RequestConfig;
  withAuthHeaders : jsstring -> jsstring -> RequestConfig -> RequestConfig;
  getKey : list Event -> option Uint8Array -> Exn + CryptoKey;
  getForkDecryptedBlob :
    list Event -> CryptoKey -> jsstring -> Version -> Exn + option ForkBlob.t
}.

Inductive ConsumeForkPayload : Type :=
| Sso (localState : option jsstring) (state selector : jsstring)
    (key : option Uint8Array) (version : Version)
| Secure (state selector keyPassword : jsstring).

Definition selector (p : ConsumeForkPayload) : jsstring :=
  match p with Sso _ _ s _ _ => s | Secure _ s _ => s end.

Definition state (p : ConsumeForkPayload) : jsstring :=
  match p with Sso _ s _ _ _ => s | Secure s _ _ => s end.

Record ConsumeForkOptions : Type := {
  api : Api;
  apiUrl : option jsstring;
  payload : ConsumeForkPayload
}.

Definition invalid_fork_state : Exn :=
  InvalidForkConsumeError (js "Invalid fork state").

Definition failed_to_decrypt : Exn :=
  InvalidForkConsumeError (js "Failed to decrypt fork payload").

(** [blob?.keyPassword ?? ''] *)
Definition keyPassword_of (blob : option ForkBlob.t) : jsstring :=
  match blob with
  | Some b => match ForkBlob.keyPassword b with Some s => s | None => [] end
  | None => []
  end.

Section ConsumeFork.
Variable imports : Imports.

Definition validFork (payload : ConsumeForkPayload) : bool :=
  match payload with
  | Secure _ _ _ => true
  | Sso localState _ _ key _ => defined localState && defined key
  end
  && truthy (selector payload)
  && truthy (state payload).

(** The immediately invoked async function of the sso branch. *)
Definition decryptKeyPassword (key : option Uint8Array) (Payload : jsstring)
    (version : Version) : M jsstring :=
  try_catch
    (k <- perform (fun tr => getKey imports tr key) (EvGetKey key) ;;
     blob <- perform (fun tr => getForkDecryptedBlob imports tr k Payload version)
               (EvGetForkDecryptedBlob k Payload version) ;;
     ret (keyPassword_of blob))
    (fun _ => throw failed_to_decrypt).

Definition consumeFork (options : ConsumeForkOptions) : M AuthSession.t :=
  let payload := payload options in
  let apiUrl := apiUrl options in
  let api := api options in
  if negb (validFork payload) then throw invalid_fork_state
  else
    let pullForkParams := pullForkSession imports (selector payload) in
    let pullForkParams :=
      set_url pullForkParams
        (match apiUrl with
         | Some prefix =>
             if truthy prefix then prefix ++ js "/" ++ url pullForkParams
             else url pullForkParams
         | None => url pullForkParams
         end) in
    pull <- perform (fun tr => api PullFork tr pullForkParams)
              (EvApi PullFork pullForkParams) ;;
    let UID := PullForkResponse.UID pull in
    let RefreshToken := PullForkResponse.RefreshToken pull in
    let LocalID := PullForkResponse.LocalID pull in
    let Payload := PullForkResponse.Payload pull in
    let refreshParams :=
      withUIDHeaders imports UID (refreshTokens imports RefreshToken) in
    refresh <- perform (fun tr => api RefreshSession tr refreshParams)
                 (EvApi RefreshSession refreshParams) ;;
    let userParams :=
      withAuthHeaders imports UID (RefreshSessionResponse.AccessToken refresh)
        (getUser imports) in
    user <- perform (fun tr => api GetUser tr userParams)
              (EvApi GetUser userParams) ;;
    keyPassword <-
      match payload with
      | Secure _ _ keyPassword => ret keyPassword
      | Sso _ _ _ key version => decryptKeyPassword key Payload version
      end ;;
    ret {| AuthSession.AccessToken := RefreshSessionResponse.AccessToken refresh;
           AuthSession.keyPassword := keyPassword;
           AuthSession.LocalID := LocalID;
           AuthSession.RefreshToken := RefreshSessionResponse.RefreshToken refresh;
           AuthSession.UID := UID;
           AuthSession.UserID := User.ID (UserResponse.User user) |}.

End ConsumeFork.

End Fork.

(** ** Shapes of a run of [consumeFork], and a test scenario *)

Module ForkSpec.
Import Fork.

(** The gate of [consumeFork], in the words of the specification. *)
Definition fails_validation_gate (p : ConsumeForkPayload) : Prop :=
  selector p = [] \/ state p = [] \/
  exists localState st sel key version,
    p = Sso localState st sel key version /\ (localState = None \/ key = None).

Section Chain.
Variable imports : Imports.
Variable options : ConsumeForkOptions.

(** The three requests, each built from the answers before it. *)
Definition pullForkRequest : RequestConfig :=
  let c := pullForkSession imports (selector (payload options)) in
  set_url c
    (match apiUrl options with
     | Some ((_ :: _) as prefix) => prefix ++ js "/" ++ url c
     | _ => url c
     end).

Definition refreshRequest (pull : PullForkResponse.t) : RequestConfig :=
  withUIDHeaders imports (PullForkResponse.UID pull)
    (refreshTokens imports (PullForkResponse.RefreshToken pull)).

Definition userRequest (pull : PullForkResponse.t)
    (refresh : RefreshSessionResponse.t) : RequestConfig :=
  withAuthHeaders imports (PullForkResponse.UID pull)
    (RefreshSessionResponse.AccessToken refresh) (getUser imports).

(** The ways a run can go once the gate is passed: a network call fails
    and its error is the outcome, with nothing called after it; or the
    three network calls succeed one after the other and only the key
    password remains to be resolved. *)
Inductive network_chain : (Exn + AuthSession.t) * list Event -> Prop :=
| chain_pull_fails e :
    api options PullFork [] pullForkRequest = inl e ->
    network_chain (inl e, [EvApi PullFork pullForkRequest (inl e)])
| chain_refresh_fails pull e :
    let ev1 := EvApi PullFork pullForkRequest (inr pull) in
    api options PullFork [] pullForkRequest = inr pull ->
    api options RefreshSession [ev1] (refreshRequest pull) = inl e ->
    network_chain
      (inl e, [ev1; EvApi RefreshSession (refreshRequest pull) (inl e)])
| chain_user_fails pull refresh e :
    let ev1 := EvApi PullFork pullForkRequest (inr pull) in
    let ev2 := EvApi RefreshSession (refreshRequest pull) (inr refresh) in
    api options PullFork [] pullForkRequest = inr pull ->
    api options RefreshSession [ev1] (refreshRequest pull) = inr refresh ->
    api options GetUser [ev1; ev2] (userRequest pull refresh) = inl e ->
    network_chain
      (inl e, [ev1; ev2; EvApi GetUser (userRequest pull refresh) (inl e)])
| chain_complete pull refresh user outcome rest :
    let ev1 := EvApi PullFork pullForkRequest (inr pull) in
    let ev2 := EvApi RefreshSession (refreshRequest pull) (inr refresh) in
    let ev3 := EvApi GetUser (userRequest pull refresh) (inr user) in
    api options PullFork [] pullForkRequest = inr pull ->
    api options RefreshSession [ev1] (refreshRequest pull) = inr refresh ->
    api options GetUser [ev1; ev2] (userRequest pull refresh) = inr user ->
    forallb is_decryption rest = true ->
    (match payload options with Secure _ _ _ => rest = [] | Sso _ _ _ _ _ => True end) ->
    (outcome = inl failed_to_decrypt \/ exists session, outcome = inr session) ->
    network_chain (outcome, ev1 :: ev2 :: ev3 :: rest).

End Chain.

End ForkSpec.

Module ForkScenario.
Import Fork.

Definition header (name : string) (value : jsstring) : jsstring * jsstring :=
  (js name, value).

(** Stand-ins for the imported helpers. *)
Definition imports (decrypted : Exn + option ForkBlob.t) : Imports :=
  {| pullForkSession := fun sel =>
       {| url := js "auth/v4/sessions/forks/" ++ sel; method := js "get";
          headers := []; data := [] |};
     refreshTokens := fun token =>
       {| url := js "auth/v4/refresh"; method := js "post";
          headers := []; data := [header "RefreshToken" token] |};
     getUser :=
       {| url := js "core/v4/users"; method := js "get";
          headers := []; data := [] |};
     withUIDHeaders := fun uid c =>
       {| url := url c; method := method c;
          headers := header "x-pm-uid" uid :: headers c; data := data c |};
     withAuthHeaders := fun uid token c =>
       {| url := url c; method := method c;
          headers := header "x-pm-uid" uid
                     :: header "Authorization" (js "Bearer " ++ token)
                     :: headers c;
          data := data c |};
     getKey := fun _ raw =>
       match raw with
       | Some _ => inr (CryptoKeyHandle 1)
       | None => inl (Thrown (js "TypeError"))
       end;
     getForkDecryptedBlob := fun _ _ _ _ => decrypted |}.

(** The answers of the end-to-end scenario of the specification. *)
Definition scenario_api : Api :=
  fun k _ _ =>
    match k return Exn + ApiResponse k with
    | PullFork =>
        inr {| PullForkResponse.UID := js "u1";
               PullForkResponse.RefreshToken := js "r1";
               PullForkResponse.LocalID := 3;
               PullForkResponse.Payload := js "enc..." |}
    | RefreshSession =>
        inr {| RefreshSessionResponse.AccessToken := js "a2";
               RefreshSessionResponse.RefreshToken := js "r2" |}
    | GetUser => inr {| UserResponse.User := {| User.ID := js "user-9" |} |}
    end.

(** The same answers, but the refresh call is rejected. *)
Definition refresh_rejected : Api :=
  fun k tr config =>
    match k return Exn + ApiResponse k with
    | RefreshSession => inl (Thrown (js "StatusCodeError: 401"))
    | k' => scenario_api k' tr config
    end.

Definition raw_key : Uint8Array := [x01; x02; x03; x04].

Definition sso_options : ConsumeForkOptions :=
  {| api := scenario_api; apiUrl := None;
     payload := Sso (Some (js "state-1")) (js "state-1") (js "selector-1")
                  (Some raw_key) V2 |}.

Definition secure_options : ConsumeForkOptions :=
  {| api := scenario_api; apiUrl := Some (js "https://pass-api.example");
     payload := Secure (js "state-1") (js "selector-1") (js "pw") |}.

Definition decrypts_to_pw : Imports :=
  imports (inr (Some {| ForkBlob.keyPassword := Some (js "pw") |})).

Definition decryption_throws : Imports :=
  imports (inl (Thrown (js "OperationError"))).

Definition scenario_session : AuthSession.t :=
  {| AuthSession.AccessToken := js "a2";
     AuthSession.keyPassword := js "pw";
     AuthSession.LocalID := 3;
     AuthSession.RefreshToken := js "r2";
     AuthSession.UID := js "u1";
     AuthSession.UserID := js "user-9" |}.

End ForkScenario.

(** ** The cache saga *)

Module Cache.

Record AnyAction : Type := { type : jsstring }.

(** The opaque key object handed out by [getCacheEncryptionKey]. *)
Inductive CryptoKey : Type := CryptoKeyHandle (id : N).

(** The one member of [EncryptionTag] the saga uses. *)
Inductive EncryptionTag : Type := TagCache.

Section Saga.
(** The store state and the snapshot of the crypto worker. *)
Variables State Snapshot : Type.

Inductive Event : Type :=
| EvWait (ms : Z) (result : Exn + unit)
| EvHasSession (result : Exn + bool)
| EvSelectSessionLockToken (result : Exn + option jsstring)
| EvGetRandomValues (length : nat) (result : Exn + Uint8Array)
| EvGetCacheEncryptionKey (salt : Uint8Array) (sessionLockToken : option jsstring)
    (result : Exn + CryptoKey)
| EvSelectState (result : Exn + State)
| EvEncryptData (key : CryptoKey) (data : Uint8Array) (tag : EncryptionTag)
    (result : Exn + Uint8Array)
| EvSerialize (result : Exn + Snapshot)
| EvLoggerInfo (message : jsstring) (result : Exn + unit)
| EvSetItem (key value : jsstring) (result : Exn + unit).

Definition is_write (ev : Event) : bool :=
  match ev with EvSetItem _ _ _ => true | _ => false end.

Definition written_key (ev : Event) : option jsstring :=
  match ev with EvSetItem k _ _ => Some k | _ => None end.

(** What the saga imports and the ambient objects it reads. *)
(** The two calls made before the [try] block is entered. *)
Definition outside_try (ev : Event) : bool :=
  match ev with EvWait _ _ | EvHasSession _ => true | _ => false end.

Record Imports : Type := {
  (** [wait] of the promise helpers: the promise yielded may reject *)
  promise_wait : list Event -> Z -> Exn + unit;
  (** [authentication.hasSession]; [None] when [authentication] is undefined *)
  authentication_hasSession : option (list Event -> Exn + bool);
  CACHE_SALT_LENGTH : nat;
  select_selectSessionLockToken : list Event -> Exn + option jsstring;
  crypto_getRandomValues : list Event -> nat -> Exn + Uint8Array;
  getCacheEncryptionKey :
    list Event -> Uint8Array -> option jsstring -> Exn + CryptoKey;
  select_state : list Event -> Exn + State;
  asIfNotOptimistic : State -> Exn + State;
  objectDelete_request : State -> Exn + State;
  JSON_stringify_state : State -> Exn + jsstring;
  JSON_stringify_snapshot : Snapshot -> Exn + jsstring;
  TextEncoder_encode : jsstring -> Uint8Array;
  stringToUint8Array : jsstring -> Uint8Array;
  uint8ArrayToString : Uint8Array -> jsstring;
  encryptData :
    list Event -> CryptoKey -> Uint8Array -> EncryptionTag -> Exn + Uint8Array;
  PassCrypto_serialize : list Event -> Exn + Snapshot;
  logger_info : list Event -> jsstring -> Exn + unit;
  browserLocalStorage_setItem : list Event -> jsstring -> jsstring -> Exn + unit
}.

Variable imports : Imports.

(** A call that only computes: nothing is logged. *)
Definition pure {A} (r : Exn + A) : M (Ev := Event) A := fun tr => (r, tr).

(** [yield wait(ms)] *)
Definition wait (ms : Z) : M (Ev := Event) unit :=
  perform (fun tr => promise_wait imports tr ms) (EvWait ms).

(** [authentication?.hasSession()]: undefined, so falsy, when
    [authentication] is undefined. *)
Definition hasSession : M (Ev := Event) bool :=
  match authentication_hasSession imports with
  | Some hasSession => perform hasSession EvHasSession
  | None => ret false
  end.

Definition setItem (key value : jsstring) : M unit :=
  perform (fun tr => browserLocalStorage_setItem imports tr key value)
    (EvSetItem key value).

Definition cacheWorker (action : AnyAction) : M unit :=
  _ <- wait 500 ;;
  session <- hasSession ;;
  if session then
      try_catch
        (sessionLockToken <-
           perform (select_selectSessionLockToken imports) EvSelectSessionLockToken ;;
         cacheSalt <-
           perform (fun tr => crypto_getRandomValues imports tr (CACHE_SALT_LENGTH imports))
             (EvGetRandomValues (CACHE_SALT_LENGTH imports)) ;;
         key <-
           perform (fun tr => getCacheEncryptionKey imports tr cacheSalt sessionLockToken)
             (EvGetCacheEncryptionKey cacheSalt sessionLockToken) ;;
         state <- perform (select_state imports) EvSelectState ;;
         nonOptimisticState <- pure (asIfNotOptimistic imports state) ;;
         whiteListedState <- pure (objectDelete_request imports nonOptimisticState) ;;
         stringifiedState <- pure (JSON_stringify_state imports whiteListedState) ;;
         encryptedData <-
           (let data := TextEncoder_encode imports stringifiedState in
            perform (fun tr => encryptData imports tr key data TagCache)
              (EvEncryptData key data TagCache)) ;;
         workerSnapshot <- perform (PassCrypto_serialize imports) EvSerialize ;;
         stringifiedSnapshot <- pure (JSON_stringify_snapshot imports workerSnapshot) ;;
         encryptedWorkerSnapshot <-
           (let data := stringToUint8Array imports stringifiedSnapshot in
            perform (fun tr => encryptData imports tr key data TagCache)
              (EvEncryptData key data TagCache)) ;;
         _ <- (let message :=
                 js "[Saga::Cache] Caching store and crypto state @ action["
                 ++ dquote ++ type action ++ dquote ++ js "]" in
               perform (fun tr => logger_info imports tr message) (EvLoggerInfo message)) ;;
         _ <- setItem (js "salt") (uint8ArrayToString imports cacheSalt) ;;
         _ <- setItem (js "state") (uint8ArrayToString imports encryptedData) ;;
         _ <- setItem (js "snapshot")
                (uint8ArrayToString imports encryptedWorkerSnapshot) ;;
         ret tt)
        (fun _ => ret tt)
  else ret tt.

(** A computation that only adds calls to the log. *)
Definition extends_log {A} (m : M (Ev := Event) A) : Prop :=
  forall tr, exists calls, snd (m tr) = tr ++ calls.

(** The storage keys written during a run, in order. *)
Definition writes (tr : list Event) : list (option jsstring) :=
  map written_key (filter is_write tr).

(** A computation that writes nothing to storage. *)
Definition no_write {A} (m : M (Ev := Event) A) : Prop :=
  forall tr, writes (snd (m tr)) = writes tr.

(** A computation that, started before any write, writes some first part of
    ['salt'], ['state'], ['snapshot']. *)
Definition writes_in_order {A} (m : M (Ev := Event) A) : Prop :=
  forall tr, writes tr = [] ->
  exists n,
    writes (snd (m tr))
    = firstn n [Some (js "salt"); Some (js "state"); Some (js "snapshot")].

End Saga.

Arguments authentication_hasSession {State Snapshot}.
Arguments writes {State Snapshot}.
Arguments no_write {State Snapshot A}.
Arguments extends_log {State Snapshot A}.
Arguments writes_in_order {State Snapshot A}.
Arguments pure {State Snapshot A}.
Arguments wait {State Snapshot}.
Arguments setItem {State Snapshot}.
Arguments hasSession {State Snapshot}.
Arguments outside_try {State Snapshot}.
Arguments EvWait {State Snapshot}.
Arguments EvHasSession {State Snapshot}.
Arguments EvSetItem {State Snapshot}.
Arguments is_write {State Snapshot}.
Arguments written_key {State Snapshot}.
Arguments cacheWorker {State Snapshot}.

End Cache.

(** ** String methods *)

Module Str.

Definition hash_sign : N := 35.

(** [s.lastIndexOf(c)] for a search string of one code unit. *)
Definition lastIndexOf_step (c : N) (acc : Z * Z) (x : N) : Z * Z :=
  let (i, found) := acc in ((i + 1)%Z, if N.eqb x c then i else found).

Definition lastIndexOf (s : jsstring) (c : N) : Z :=
  snd (fold_left (lastIndexOf_step c) s (0%Z, (-1)%Z)).

(** [s.includes(c)] for a search string of one code unit. *)
Definition includes (s : jsstring) (c : N) : bool :=
  existsb (fun x => N.eqb x c) s.

(** [s.slice(start, end)]; [s.slice(start)] when [end_] is [None]. *)
Definition slice (s : jsstring) (start : Z) (end_ : option Z) : jsstring :=
  let len := Z.of_nat (List.length s) in
  let clamp (i : Z) := if (i <? 0)%Z then Z.max (len + i) 0 else Z.min i len in
  let from := clamp start in
  let to := clamp (match end_ with Some e => e | None => len end) in
  if (from >=? to)%Z then []
  else firstn (Z.to_nat (to - from)) (skipn (Z.to_nat from) s).

(** A template literal [`${n}`] for an integer [n] of magnitude below
    10^21, as a local ID is: plain decimal digits.  From 10^21 on
    JavaScript prints an exponent, which is not modelled. *)
Definition of_number (n : Z) : jsstring :=
  js (DecimalString.NilZero.string_of_int (Z.to_int n)).

Definition is_ascii (s : jsstring) : bool := forallb (fun c => N.ltb c 128) s.

End Str.

(** ** UTF-8, as the URL standard uses it *)

Module UTF8.
#[local] Open Scope N_scope.

Definition replacement : N := 65533.

Definition is_high_surrogate (c : N) : bool := N.leb 55296 c && N.leb c 56319.
Definition is_low_surrogate (c : N) : bool := N.leb 56320 c && N.leb c 57343.

Definition encode_code_point (cp : N) : list N :=
  if N.ltb cp 128 then [cp]
  else if N.ltb cp 2048 then [192 + cp / 64; 128 + cp mod 64]
  else if N.ltb cp 65536 then
    [224 + cp / 4096; 128 + (cp / 64) mod 64; 128 + cp mod 64]
  else
    [240 + cp / 262144; 128 + (cp / 4096) mod 64; 128 + (cp / 64) mod 64;
     128 + cp mod 64].

(** UTF-8 encode of a string: a surrogate that has no partner becomes
    U+FFFD. *)
Fixpoint encode (s : jsstring) : list N :=
  match s with
  | [] => []
  | c :: rest =>
      if is_high_surrogate c then
        match rest with
        | d :: rest' =>
            if is_low_surrogate d
            then encode_code_point (65536 + (c - 55296) * 1024 + (d - 56320))
                 ++ encode rest'
            else encode_code_point replacement ++ encode rest
        | [] => encode_code_point replacement
        end
      else if is_low_surrogate c then encode_code_point replacement ++ encode rest
      else encode_code_point c ++ encode rest
  end.

(** The state of the decoder between two bytes. *)
Record decoder : Type := {
  code_point : N; bytes_seen : N; bytes_needed : N; lower : N; upper : N
}.

Definition initial : decoder :=
  {| code_point := 0; bytes_seen := 0; bytes_needed := 0; lower := 128; upper := 191 |}.

Definition lead (needed lo hi cp : N) : decoder :=
  {| code_point := cp; bytes_seen := 0; bytes_needed := needed;
     lower := lo; upper := hi |}.

(** A byte read when no sequence is open. *)
Definition first_byte (b : N) : list N * decoder :=
  if N.leb b 127 then ([b], initial)
  else if N.leb 194 b && N.leb b 223 then ([], lead 1 128 191 (N.land b 31))
  else if N.leb 224 b && N.leb b 239 then
    ([], lead 2 (if N.eqb b 224 then 160 else 128)
               (if N.eqb b 237 then 159 else 191) (N.land b 15))
  else if N.leb 240 b && N.leb b 244 then
    ([], lead 3 (if N.eqb b 240 then 144 else 128)
               (if N.eqb b 244 then 143 else 191) (N.land b 7))
  else ([replacement], initial).

Fixpoint decode_from (st : decoder) (bs : list N) : list N :=
  match bs with
  | [] => if N.eqb (bytes_needed st) 0 then [] else [replacement]
  | b :: rest =>
      if N.eqb (bytes_needed st) 0 then
        let (out, st') := first_byte b in out ++ decode_from st' rest
      else if N.leb (lower st) b && N.leb b (upper st) then
        let cp := N.lor (N.shiftl (code_point st) 6) (N.land b 63) in
        if N.eqb (bytes_seen st + 1) (bytes_needed st)
        then cp :: decode_from initial rest
        else decode_from
               {| code_point := cp; bytes_seen := bytes_seen st + 1;
                  bytes_needed := bytes_needed st; lower := 128; upper := 191 |}
               rest
      else
        (* the byte is read again with no sequence open *)
        let (out, st') := first_byte b in
        replacement :: out ++ decode_from st' rest
  end.

Definition utf16_of_code_point (cp : N) : jsstring :=
  if N.ltb cp 65536 then [cp]
  else [55296 + (cp - 65536) / 1024; 56320 + (cp - 65536) mod 1024].

(** UTF-8 decode without BOM, into a string. *)
Definition decode (bs : list N) : jsstring :=
  flat_map utf16_of_code_point (decode_from initial bs).

End UTF8.

(** ** [URLSearchParams]: the [application/x-www-form-urlencoded] format *)

Module URLSearchParams.
#[local] Open Scope N_scope.

Definition t : Type := list (jsstring * jsstring).

Definition ampersand : N := 38.
Definition equals_sign : N := 61.
Definition plus_sign : N := 43.
Definition percent_sign : N := 37.
Definition space : N := 32.
Definition question_mark : N := 63.

(** *** Serialising *)

Definition hex_digit (n : N) : N := if n <? 10 then 48 + n else 55 + n.

(** The bytes the serialiser leaves as they are: ASCII alphanumerics and
    [*], [-], [.], [_]. *)
Definition unreserved (b : N) : bool :=
  ((48 <=? b) && (b <=? 57)) || ((65 <=? b) && (b <=? 90))
  || ((97 <=? b) && (b <=? 122))
  || (b =? 42) || (b =? 45) || (b =? 46) || (b =? 95).

Definition encode_byte (b : N) : jsstring :=
  if b =? space then [plus_sign]
  else if unreserved b then [b]
  else [percent_sign; hex_digit (b / 16); hex_digit (b mod 16)].

Definition urlencode (s : jsstring) : jsstring :=
  flat_map encode_byte (UTF8.encode s).

Fixpoint join (sep : N) (parts : list jsstring) : jsstring :=
  match parts with
  | [] => []
  | [p] => p
  | p :: rest => p ++ sep :: join sep rest
  end.

Definition serialized_pair (nv : jsstring * jsstring) : jsstring :=
  urlencode (fst nv) ++ equals_sign :: urlencode (snd nv).

(** [params.toString()] *)
Definition toString (params : t) : jsstring :=
  join ampersand (map serialized_pair params).

(** *** Parsing *)

Fixpoint split_on (sep : N) (bs : list N) : list (list N) :=
  match bs with
  | [] => [[]]
  | b :: rest =>
      if b =? sep then [] :: split_on sep rest
      else match split_on sep rest with
           | first :: others => (b :: first) :: others
           | [] => [[b]]
           end
  end.

(** The part before the first [sep], and the part after it when there is
    one. *)
Fixpoint split_first (sep : N) (bs : list N) : list N * option (list N) :=
  match bs with
  | [] => ([], None)
  | b :: rest =>
      if b =? sep then ([], Some rest)
      else let (name, value) := split_first sep rest in (b :: name, value)
  end.

Definition hex_value (c : N) : option N :=
  if (48 <=? c) && (c <=? 57) then Some (c - 48)
  else if (65 <=? c) && (c <=? 70) then Some (c - 55)
  else if (97 <=? c) && (c <=? 102) then Some (c - 87)
  else None.

Fixpoint percent_decode (bs : list N) : list N :=
  match bs with
  | [] => []
  | b :: rest =>
      if b =? percent_sign then
        match rest with
        | h :: l :: rest' =>
            match hex_value h, hex_value l with
            | Some vh, Some vl => (16 * vh + vl) :: percent_decode rest'
            | _, _ => b :: percent_decode rest
            end
        | _ => b :: percent_decode rest
        end
      else b :: percent_decode rest
  end.

Definition plus_to_space (b : N) : N := if b =? plus_sign then space else b.

Definition decode_component (bs : list N) : jsstring :=
  UTF8.decode (percent_decode (map plus_to_space bs)).

Definition parse_sequence (bytes : list N) : t :=
  match bytes with
  | [] => []
  | _ :: _ =>
      let (name, value) := split_first equals_sign bytes in
      [(decode_component name,
        decode_component (match value with Some v => v | None => [] end))]
  end.

Definition parse (input : jsstring) : t :=
  flat_map parse_sequence (split_on ampersand (UTF8.encode input)).

(** [new URLSearchParams(init)] for a string: a leading [?] is dropped. *)
Definition of_string (init : jsstring) : t :=
  match init with
  | c :: rest => if c =? question_mark then parse rest else parse init
  | [] => parse init
  end.

(** [new URLSearchParams()] *)
Definition empty : t := [].

Definition append (params : t) (name value : jsstring) : t :=
  params ++ [(name, value)].

(** [params.get(name)]: the first value under [name], or [null]. *)
Fixpoint get (params : t) (name : jsstring) : option jsstring :=
  match params with
  | [] => None
  | (n, v) :: rest => if eqb n name then Some v else get rest name
  end.

(** The characters that delimit pairs, names and fragments; the serialiser
    always escapes them. *)
Definition separator (c : N) : Prop :=
  c = ampersand \/ c = equals_sign \/ c = Str.hash_sign.

(** A name and a value whose code units are all ASCII. *)
Definition ascii_pair (nv : jsstring * jsstring) : bool :=
  Str.is_ascii (fst nv) && Str.is_ascii (snd nv).

End URLSearchParams.

(** ** URL-safe base64 *)

Module Base64.
#[local] Open Scope N_scope.

Definition pad : N := 61.

(** The character of a 6-bit value in the standard alphabet. *)
Definition alphabet (v : N) : N :=
  if v <? 26 then 65 + v
  else if v <? 52 then 97 + (v - 26)
  else if v <? 62 then 48 + (v - 52)
  else if v =? 62 then 43
  else 47.

(** [btoa] on a binary string (code units below 256). *)
Fixpoint encodeBase64 (s : jsstring) : jsstring :=
  match s with
  | [] => []
  | [a] => [alphabet (a / 4); alphabet ((a mod 4) * 16); pad; pad]
  | [a; b] =>
      [alphabet (a / 4); alphabet ((a mod 4) * 16 + b / 16);
       alphabet ((b mod 16) * 4); pad]
  | a :: b :: c :: rest =>
      alphabet (a / 4) :: alphabet ((a mod 4) * 16 + b / 16)
      :: alphabet ((b mod 16) * 4 + c / 64) :: alphabet (c mod 64)
      :: encodeBase64 rest
  end.

Definition url_safe_char (c : N) : N :=
  if c =? 43 then 45 else if c =? 47 then 95 else c.

(** Modelled from the spec: [encodeBase64URL] is not among the sources;
    the specification has it as URL-safe base64 without padding, that is
    base64 with [+] and [/] replaced by [-] and [_] and the [=] removed. *)
Definition encodeBase64URL (s : jsstring) : jsstring :=
  filter (fun c => negb (c =? pad)) (map url_safe_char (encodeBase64 s)).

(** Modelled from the spec: [uint8ArrayToString] is not among the sources;
    it gives the binary string of the bytes. *)
Definition uint8ArrayToString (a : Uint8Array) : jsstring := map Byte.to_N a.




End Base64.

(** ** The fork request builder *)

Module RequestFork.

Record RequestForkOptions : Type := {
  app : jsstring;           (* APP_NAMES *)
  host : option jsstring;
  localID : option Z;
  type : option jsstring    (* FORK_TYPE *)
}.

Record RequestForkResult : Type := { state : jsstring; url : jsstring }.

Section Builder.
(** [getAppHref('/', APPS.PROTONACCOUNT)] and [SSO_PATHS.AUTHORIZE] *)
Variable account_href : jsstring.
Variable SSO_PATHS_AUTHORIZE : jsstring.
(** The secure random source: the byte it puts at each index. *)
Variable random_byte : nat -> byte.

(** [crypto.getRandomValues(new Uint8Array(n))] *)
Definition getRandomValues (n : nat) : Uint8Array := map random_byte (seq 0 n).

(** The parameters appended to [searchParams], in order. *)
Definition searchParams (options : RequestForkOptions) (state : jsstring)
  : URLSearchParams.t :=
  let searchParams := URLSearchParams.empty in
  let searchParams := URLSearchParams.append searchParams (js "app") (app options) in
  let searchParams := URLSearchParams.append searchParams (js "state") state in
  let searchParams := URLSearchParams.append searchParams (js "independent") (js "0") in
  let searchParams :=
    match localID options with
    | Some localID => URLSearchParams.append searchParams (js "u") (Str.of_number localID)
    | None => searchParams
    end in
  match type options with
  | Some type =>
      if truthy type then URLSearchParams.append searchParams (js "t") type
      else searchParams
  | None => searchParams
  end.

Definition requestFork (options : RequestForkOptions) : RequestForkResult :=
  let host := match host options with Some h => h | None => account_href end in
  let state :=
    Base64.encodeBase64URL (Base64.uint8ArrayToString (getRandomValues 32)) in
  {| url := host ++ SSO_PATHS_AUTHORIZE ++ js "?"
            ++ URLSearchParams.toString (searchParams options state);
     state := state |}.

End Builder.



(** The query of a URL: what follows the first [?] of the URL without its
    fragment, the fragment starting at the first [#]. *)
Definition url_query (url : jsstring) : option jsstring :=
  snd (URLSearchParams.split_first URLSearchParams.question_mark
         (fst (URLSearchParams.split_first Str.hash_sign url))).

End RequestFork.

(** ** The fragment parameter parser *)

Module ConsumeForkParameters.

Section Parser.
Variable FORK_TYPE : Type.
Variable getValidatedRawKey : jsstring -> option Uint8Array.
Variable getValidatedForkType : jsstring -> option FORK_TYPE.

Record t : Type := {
  state : jsstring;
  selector : jsstring;
  key : option Uint8Array;
  type : option FORK_TYPE;
  persistent : bool;
  trusted : bool;
  version : Fork.Version
}.

(** [new URLSearchParams(window.location.hash.slice(sliceIndex))] *)
Definition hashParams (location_hash : jsstring) : URLSearchParams.t :=
  let sliceIndex := (Str.lastIndexOf location_hash Str.hash_sign + 1)%Z in
  URLSearchParams.of_string (Str.slice location_hash sliceIndex None).

(** [window.location.hash] is read from the argument. *)
Definition getConsumeForkParameters (location_hash : jsstring) : t :=
  let hashParams := hashParams location_hash in
  let selector := or_empty (URLSearchParams.get hashParams (js "selector")) in
  let state := or_empty (URLSearchParams.get hashParams (js "state")) in
  let base64StringKey := or_empty (URLSearchParams.get hashParams (js "sk")) in
  let type := or_empty (URLSearchParams.get hashParams (js "t")) in
  let persistent := or_empty (URLSearchParams.get hashParams (js "p")) in
  let trusted := or_empty (URLSearchParams.get hashParams (js "tr")) in
  let version := or_empty (URLSearchParams.get hashParams (js "v")) in
  {| state := Str.slice state 0 (Some 100%Z);
     selector := selector;
     key := match List.length base64StringKey with
            | O => None
            | S _ => getValidatedRawKey base64StringKey
            end;
     type := getValidatedForkType type;
     persistent := eqb persistent (js "1");
     trusted := eqb trusted (js "1");
     version := if eqb version (js "2") then Fork.V2 else Fork.V1 |}.

End Parser.

Arguments state {FORK_TYPE}.
Arguments selector {FORK_TYPE}.
Arguments key {FORK_TYPE}.
Arguments type {FORK_TYPE}.
Arguments persistent {FORK_TYPE}.
Arguments trusted {FORK_TYPE}.
Arguments version {FORK_TYPE}.

End ConsumeForkParameters.

(** ** What the fragment parser is to return *)

Module ConsumeForkParametersSpec.

(** The value of the first parameter called [name], the empty string when
    there is none. *)
Definition parameter (params : URLSearchParams.t) (name : string) : jsstring :=
  match URLSearchParams.get params (js name) with
  | Some value => value
  | None => []
  end.

End ConsumeForkParametersSpec.

(** ** Test inputs for the request builder and the fragment parser *)

Module ForkUrlScenario.
Import RequestFork.

Definition account_href : jsstring := js "https://account.proton.me".
Definition authorize : jsstring := js "/authorize".

(** A fixed stand-in for the random source. *)
Definition random_byte (i : nat) : byte := if Nat.even i then xa5 else x3c.

Definition options : RequestForkOptions :=
  {| app := js "proton-pass"; host := None; localID := Some 3%Z;
     type := Some (js "1") |}.

Definition bare_options : RequestForkOptions :=
  {| app := js "proton-pass"; host := Some (js "https://account.example");
     localID := None; type := None |}.

(** Validators that accept nothing. *)
Definition no_key (_ : jsstring) : option Uint8Array := None.
Definition no_type (_ : jsstring) : option unit := None.

Definition nested_hash : jsstring :=
  js "#selector=old&state=stale#selector=abc&state=xyz&v=2".

End ForkUrlScenario.

(** ** The calls of [consumeFork], by kind *)

Module ForkCalls.
Import Fork.

Inductive CallKind : Type :=
| CallPullFork | CallRefreshSession | CallGetUser | CallGetKey | CallDecrypt.

Definition call_kind (ev : Event) : CallKind :=
  match ev with
  | EvApi PullFork _ _ => CallPullFork
  | EvApi RefreshSession _ _ => CallRefreshSession
  | EvApi GetUser _ _ => CallGetUser
  | EvGetKey _ _ => CallGetKey
  | EvGetForkDecryptedBlob _ _ _ _ => CallDecrypt
  end.

(** The order in which the source makes its calls. *)
Definition call_order : list CallKind :=
  [CallPullFork; CallRefreshSession; CallGetUser; CallGetKey; CallDecrypt].

End ForkCalls.

(** ** The log of the cache saga, read *)

Module CacheSpec.
Import Cache.

Arguments promise_wait {State Snapshot}.
Arguments EvSelectSessionLockToken {State Snapshot}.
Arguments EvGetRandomValues {State Snapshot}.
Arguments EvGetCacheEncryptionKey {State Snapshot}.
Arguments EvSelectState {State Snapshot}.
Arguments EvEncryptData {State Snapshot}.
Arguments EvSerialize {State Snapshot}.
Arguments EvLoggerInfo {State Snapshot}.
Arguments CACHE_SALT_LENGTH {State Snapshot}.
Arguments TextEncoder_encode {State Snapshot}.
Arguments stringToUint8Array {State Snapshot}.
Arguments uint8ArrayToString {State Snapshot}.
Arguments asIfNotOptimistic {State Snapshot}.
Arguments objectDelete_request {State Snapshot}.
Arguments JSON_stringify_state {State Snapshot}.
Arguments JSON_stringify_snapshot {State Snapshot}.

Section Spec.
Variables State Snapshot : Type.
Variable imports : Imports State Snapshot.

(** The call threw. *)
Definition failed (ev : Event State Snapshot) : bool :=
  match ev with
  | EvWait _ (inl _) | EvHasSession (inl _)
  | EvSelectSessionLockToken (inl _) | EvGetRandomValues _ (inl _)
  | EvGetCacheEncryptionKey _ _ (inl _) | EvSelectState (inl _)
  | EvEncryptData _ _ _ (inl _) | EvSerialize (inl _)
  | EvLoggerInfo _ (inl _) | EvSetItem _ _ (inl _) => true
  | _ => false
  end.

Definition all_succeeded (tr : list (Event State Snapshot)) : bool :=
  forallb (fun ev => negb (failed ev)) tr.

(** A computation in whose log only the last call can have thrown, and
    none when it returns. *)
Definition stops_at_failure {A} (m : M (Ev := Event State Snapshot) A) : Prop :=
  forall tr, all_succeeded tr = true ->
    all_succeeded (removelast (snd (m tr))) = true
    /\ (forall a, fst (m tr) = inr a -> all_succeeded (snd (m tr)) = true).

(** The message given to [logger.info]. *)
Definition log_message (action : AnyAction) : jsstring :=
  js "[Saga::Cache] Caching store and crypto state @ action["
  ++ dquote ++ type action ++ dquote ++ js "]".

(** The calls made before anything is written, all of them returning. *)
Definition preparation (action : AnyAction) (sessionLockToken : option jsstring)
    (cacheSalt : Uint8Array) (key : CryptoKey) (state : State)
    (stringifiedState : jsstring) (encryptedData : Uint8Array)
    (workerSnapshot : Snapshot) (stringifiedSnapshot : jsstring)
    (encryptedWorkerSnapshot : Uint8Array) : list (Event State Snapshot) :=
  [EvWait 500 (inr tt);
   EvHasSession (inr true);
   EvSelectSessionLockToken (inr sessionLockToken);
   EvGetRandomValues (CACHE_SALT_LENGTH imports) (inr cacheSalt);
   EvGetCacheEncryptionKey cacheSalt sessionLockToken (inr key);
   EvSelectState (inr state);
   EvEncryptData key (TextEncoder_encode imports stringifiedState) TagCache
     (inr encryptedData);
   EvSerialize (inr workerSnapshot);
   EvEncryptData key (stringToUint8Array imports stringifiedSnapshot) TagCache
     (inr encryptedWorkerSnapshot);
   EvLoggerInfo (log_message action) (inr tt)].

(** The three writes, with their outcomes. *)
Definition storage_writes (cacheSalt encryptedData encryptedWorkerSnapshot : Uint8Array)
    (r1 r2 r3 : Exn + unit) : list (Event State Snapshot) :=
  [EvSetItem (js "salt") (uint8ArrayToString imports cacheSalt) r1;
   EvSetItem (js "state") (uint8ArrayToString imports encryptedData) r2;
   EvSetItem (js "snapshot") (uint8ArrayToString imports encryptedWorkerSnapshot) r3].

(** A log in which every step before the writes returned, and whose
    writes, at least one, are those of what was prepared: the salt the key
    was derived from, the encryption of the encoded JSON of the state as
    if not optimistic and without ['request'], and the encryption of the
    JSON of the crypto snapshot, both under that key. *)
Definition written_as_prepared (action : AnyAction)
    (tr : list (Event State Snapshot)) : Prop :=
  exists token salt ckey state nonOptimistic whiteListed json encrypted
         snapshot sjson encryptedSnapshot r1 r2 r3 n,
    asIfNotOptimistic imports state = inr nonOptimistic
    /\ objectDelete_request imports nonOptimistic = inr whiteListed
    /\ JSON_stringify_state imports whiteListed = inr json
    /\ JSON_stringify_snapshot imports snapshot = inr sjson
    /\ (1 <= n)%nat
    /\ tr = preparation action token salt ckey state json encrypted
              snapshot sjson encryptedSnapshot
            ++ firstn n (storage_writes salt encrypted encryptedSnapshot r1 r2 r3).

End Spec.

Arguments written_as_prepared {State Snapshot}.
Arguments failed {State Snapshot}.
Arguments all_succeeded {State Snapshot}.
Arguments stops_at_failure {State Snapshot A}.
Arguments preparation {State Snapshot}.
Arguments storage_writes {State Snapshot}.

(** A test double of the saga's collaborators, over a store state and a
    snapshot that are strings: [hasSession] and the key derivation answer
    as given, and [setItem] is rejected for the keys in [rejected]. *)
Definition test_imports_with
    (hasSession : option (list (Event jsstring jsstring) -> Exn + bool))
    (derived : Exn + CryptoKey) (rejected : list jsstring)
  : Imports jsstring jsstring :=
  {| promise_wait := fun _ _ => inr tt;
     authentication_hasSession := hasSession;
     CACHE_SALT_LENGTH := 4;
     select_selectSessionLockToken := fun _ => inr (Some (js "lock"));
     crypto_getRandomValues := fun _ n => inr (repeat x07 n);
     getCacheEncryptionKey := fun _ _ _ => derived;
     select_state := fun _ => inr (js "{items,request}");
     asIfNotOptimistic := fun s => inr s;
     objectDelete_request := fun s => inr (firstn 6 s ++ js "}");
     JSON_stringify_state := fun s => inr s;
     JSON_stringify_snapshot := fun s => inr s;
     TextEncoder_encode := fun s => map (fun _ => x01) s;
     stringToUint8Array := fun s => map (fun _ => x02) s;
     uint8ArrayToString := Base64.uint8ArrayToString;
     encryptData := fun _ _ data _ => inr (rev data);
     PassCrypto_serialize := fun _ => inr (js "snap");
     logger_info := fun _ _ => inr tt;
     browserLocalStorage_setItem := fun _ k _ =>
       if existsb (eqb k) rejected then inl (Thrown (js "QuotaExceededError"))
       else inr tt |}.

(** The collaborators when [authentication] is undefined ([None]) or
    [hasSession] answers [session], and every other call but the rejected
    writes succeeds. *)
Definition test_imports (session : option bool) (rejected : list jsstring)
  : Imports jsstring jsstring :=
  test_imports_with (option_map (fun b _ => inr b) session)
    (inr (CryptoKeyHandle 9)) rejected.

(** An authentication store whose [hasSession] throws. *)
Definition session_check_throws : Imports jsstring jsstring :=
  test_imports_with (Some (fun _ => inl (Thrown (js "TypeError"))))
    (inr (CryptoKeyHandle 9)) [].

(** A session, and a key derivation that throws. *)
Definition key_derivation_throws : Imports jsstring jsstring :=
  test_imports_with (Some (fun _ => inr true))
    (inl (Thrown (js "OperationError"))) [].

Definition test_action : AnyAction := {| type := js "items::created" |}.

End CacheSpec.

(** ** The payload shown after a fork *)

Module AccountFork.

Inductive AccountForkResponse : Type := CONFLICT | SUCCESS | ERROR.

(** [error?: any]: the function reads nothing of it but [message]. *)
Record ErrorValue : Type := { message : option jsstring }.

Module Payload.
Record t : Type := { title : jsstring; message : jsstring }.
End Payload.

Section Formatter.
(** [c(context).t`...`]: the translation of a template, given its context,
    its literal parts and the values put between them. *)
Variable t : jsstring -> list jsstring -> list jsstring -> jsstring.
Variable getWelcomeToText : jsstring -> jsstring.
Variables PASS_APP_NAME MAIL_APP_NAME : jsstring.

(** [error?.message ?? ''] *)
Definition additionalMessage (error : option ErrorValue) : jsstring :=
  match error with
  | Some e => match message e with Some m => m | None => [] end
  | None => []
  end.

(** The [payload] field of the object returned. *)
Definition getAccountForkResponsePayload (type : AccountForkResponse)
    (error : option ErrorValue) : Payload.t :=
  let additionalMessage := additionalMessage error in
  match type with
  | CONFLICT =>
      {| Payload.title := t (js "Error") [js "Authentication error"] [];
         Payload.message :=
           t (js "Info")
             [js "It seems you are already logged in to ";
              js ". If you're trying to login with a different account, please logout from the extension first."]
             [PASS_APP_NAME] |}
  | SUCCESS =>
      {| Payload.title := getWelcomeToText PASS_APP_NAME;
         Payload.message :=
           t (js "Info")
             [js "More than a password manager, ";
              js " protects your password and your personal email address via email aliases. Powered by the same technology behind ";
              js ", your data is end to end encrypted and is only accessible by you."]
             [PASS_APP_NAME; MAIL_APP_NAME] |}
  | ERROR =>
      {| Payload.title := t (js "Error") [js "Something went wrong"] [];
         Payload.message :=
           t (js "Warning") [js "Unable to sign in to "; js ". "; []]
             [PASS_APP_NAME; additionalMessage] |}
  end.

End Formatter.

End AccountFork.

(** ** The page buttons of the mail list *)

From Stdlib Require Import Sorted.

Module ListPagination.
#[local] Open Scope Z_scope.

(** [unique] is not among the sources: it is taken to drop the repeated
    elements of an array and to keep the first occurrence of each, in
    order. *)
Fixpoint unique_from (seen : list Z) (array : list Z) : list Z :=
  match array with
  | [] => []
  | x :: rest =>
      if existsb (Z.eqb x) seen then unique_from seen rest
      else x :: unique_from (x :: seen) rest
  end.

Definition unique (array : list Z) : list Z := unique_from [] array.

Definition pagesToDisplay (page total : Z) : list Z :=
  let lastPage := total in
  if page =? 1 then
    unique [1; page + 1; Z.min (page + 2) lastPage; lastPage]
  else if page =? lastPage then
    unique [1; Z.max 1 (lastPage - 2); lastPage - 1; lastPage]
  else
    unique [1; page - 1; page; page + 1; lastPage].

Definition disablePrevious (page : Z) : bool := page =? 1.
Definition disableNext (page total : Z) : bool := page =? total.

(** What the row shows between the two arrows. *)
Inductive RowItem : Type :=
| Ellipsis (pageNumber : Z)
| PageButton (pageNumber : Z) (isActive : bool).

(** The [reduce] over [pagesToDisplay]: [previous] is
    [pagesToDisplay[index - 1]], and there is none at index 0. *)
Fixpoint row_from (page : Z) (previous : option Z) (pages : list Z) : list RowItem :=
  match pages with
  | [] => []
  | pageNumber :: rest =>
      let isActive := pageNumber =? page in
      match previous with
      | Some p => if pageNumber - p >? 1 then [Ellipsis pageNumber] else []
      | None => []
      end
      ++ PageButton pageNumber isActive :: row_from page (Some pageNumber) rest
  end.

Definition row (page total : Z) : list RowItem :=
  row_from page None (pagesToDisplay page total).

Definition is_active (item : RowItem) : bool :=
  match item with PageButton _ true => true | _ => false end.

Definition button_page (item : RowItem) : option Z :=
  match item with PageButton n _ => Some n | Ellipsis _ => None end.

(** The page numbers a row stands for: those of its buttons, and, for an
    ellipsis, those between the button before it and the button after
    it. *)
Fixpoint stands_for (previous : option Z) (items : list RowItem) (n : Z) : Prop :=
  match items with
  | [] => False
  | Ellipsis next :: rest =>
      match previous with
      | Some p => p < n < next
      | None => False
      end
      \/ stands_for previous rest n
  | PageButton m _ :: rest => n = m \/ stands_for (Some m) rest n
  end.

End ListPagination.

(** ** The URL of a proxied domain image *)

Module ProxiedDomainImage.

Section Image.
(** [BUILD_TARGET === 'firefox'] and [API_URL] *)
Variable build_target_is_firefox : bool.
Variable API_URL : jsstring.

Definition getImageURL (domain : option jsstring) : option jsstring :=
  match domain with
  | Some d =>
      if truthy d then
        let basePath := if build_target_is_firefox then API_URL else js "api-proxy" in
        Some (basePath ++ js "/core/v4/images/logo?Domain=" ++ d
              ++ js "&Size=64&Mode=light")
      else None
  | None => None
  end.

End Image.

(** A domain that can be put in a query as it is: ASCII, and none of the
    characters [&], [=], [+], [%] and [#]. *)
Definition plain (d : jsstring) : bool :=
  Str.is_ascii d
  && forallb (fun c => negb (existsb (N.eqb c) [38; 61; 43; 37; 35]%N)) d.

End ProxiedDomainImage.

(** ** More test inputs *)

Module MoreScenarios.
Import Fork ForkScenario.

(** The sso scenario with the refresh call rejected. *)
Definition rejected_options : ConsumeForkOptions :=
  {| api := refresh_rejected; apiUrl := None; payload := payload sso_options |}.

(** Decryption gives nothing back. *)
Definition decrypts_to_nothing : Imports := imports (inr None).

(** Parameters as an identity provider would put them in the fragment. *)
Definition fragment_params : URLSearchParams.t :=
  [(js "selector", js "abc"); (js "state", js "x y&z"); (js "sk", js "a2V5");
   (js "v", js "2"); (js "p", js "1")].

(** A fragment's parameters that carry the state of a fork request. *)
Definition echoed_params : URLSearchParams.t :=
  [(js "selector", js "abc");
   (js "state",
    RequestFork.state
      (RequestFork.requestFork ForkUrlScenario.account_href
         ForkUrlScenario.authorize ForkUrlScenario.random_byte
         ForkUrlScenario.options))].

End MoreScenarios.

(** * Properties *)

(** Division and remainder by constants are left to [lia]. *)
Ltac Zify.zify_post_hook ::= Z.to_euclidean_division_equations.

(** Case analysis on the comparisons of code units in the goal. *)
Ltac bool_cases :=
  repeat match goal with
    | |- context [N.ltb ?a ?b] => destruct (N.ltb_spec a b); try lia
    | |- context [N.leb ?a ?b] => destruct (N.leb_spec a b); try lia
    | |- context [N.eqb ?a ?b] => destruct (N.eqb_spec a b); try lia
    end.

Module JSFacts.

Lemma truthy_false s : truthy s = false <-> s = [].
Proof. destruct s; simpl; split; congruence. Qed.

Lemma truthy_true s : truthy s = true <-> s <> [].
Proof. destruct s; simpl; split; congruence. Qed.

Lemma defined_false A (o : option A) : defined o = false <-> o = None.
Proof. destruct o; simpl; split; congruence. Qed.

End JSFacts.

Module ForkProofs.
Import Fork ForkSpec JSFacts.

Lemma validFork_false p : validFork p = false <-> fails_validation_gate p.
Proof.
  unfold validFork, fails_validation_gate.
  rewrite !andb_false_iff, !truthy_false. split.
  - intros [[H | H] | H]; auto.
    destruct p as [ls st sel k v | st sel kp]; [| discriminate].
    right; right. exists ls, st, sel, k, v. split; [reflexivity |].
    apply andb_false_iff in H. rewrite !defined_false in H. exact H.
  - intros [H | [H | (ls & st & sel & k & v & -> & H)]]; auto.
    left; left. apply andb_false_iff. rewrite !defined_false. exact H.
Qed.

Ltac exec :=
  unfold run, consumeFork, decryptKeyPassword, bind, try_catch, perform, ret, throw;
  simpl.

Ltac split_call :=
  match goal with
  | |- context [match ?o PullFork ?tr ?c with _ => _ end] =>
      let E := fresh "Epull" in destruct (o PullFork tr c) eqn:E; simpl
  | |- context [match ?o RefreshSession ?tr ?c with _ => _ end] =>
      let E := fresh "Erefresh" in destruct (o RefreshSession tr c) eqn:E; simpl
  | |- context [match ?o GetUser ?tr ?c with _ => _ end] =>
      let E := fresh "Euser" in destruct (o GetUser tr c) eqn:E; simpl
  | |- context [match getKey ?i ?tr ?k with _ => _ end] =>
      let E := fresh "Ekey" in destruct (getKey i tr k) eqn:E; simpl
  | |- context [match getForkDecryptedBlob ?i ?tr ?k ?p ?v with _ => _ end] =>
      let E := fresh "Eblob" in destruct (getForkDecryptedBlob i tr k p v) eqn:E; simpl
  end.

(** When the gate is passed, the first thing [consumeFork] does is the
    pull-fork call. *)
Lemma consumeFork_valid_starts_with_pull imports options :
  validFork (payload options) = true ->
  exists config result rest,
    snd (run (consumeFork imports options)) = EvApi PullFork config result :: rest.
Proof.
  intros Hv. exec. rewrite Hv. simpl.
  destruct options as [api apiUrl p]; simpl in *.
  repeat split_call; try (destruct p; simpl; repeat split_call); eauto.
Qed.

(** C1: [consumeFork] throws [InvalidForkConsumeError('Invalid fork state')]
    with no collaborator call logged (so before any API call) exactly when
    the payload fails the validation gate: empty selector, or empty state,
    or sso mode with [localState] null or the key absent.  In particular an
    sso payload with [localState] null always fails so, whatever its other
    fields. *)
Theorem consumeFork_validation_gate :
  (forall imports options,
     run (consumeFork imports options) = (inl invalid_fork_state, [])
     <-> fails_validation_gate (payload options))
  /\ (forall imports api apiUrl st sel key version,
        run (consumeFork imports
               {| api := api; apiUrl := apiUrl;
                  payload := Sso None st sel key version |})
        = (inl invalid_fork_state, [])).
Proof.
  assert (G : forall imports options,
             run (consumeFork imports options) = (inl invalid_fork_state, [])
             <-> fails_validation_gate (payload options)).
  { intros imports options. rewrite <- validFork_false. split.
    - intros Hrun. destruct (validFork (payload options)) eqn:Hv; [| reflexivity].
      destruct (consumeFork_valid_starts_with_pull imports options Hv)
        as (c & r & rest & Htr).
      rewrite Hrun in Htr. discriminate.
    - intros Hv. exec. rewrite Hv. reflexivity. }
  split; [exact G |].
  intros. apply G. simpl. right; right. eauto 10.
Qed.

Ltac run_cases options :=
  let api := fresh "api" in
  let apiUrl := fresh "apiUrl" in
  let p := fresh "p" in
  destruct options as [api apiUrl p];
  exec;
  destruct (validFork p) eqn:?Hvalid; simpl;
  [ destruct p as [?localState ?st ?sel ?key ?version | ?st ?sel ?keyPassword];
    simpl; repeat split_call
  | ].

Ltac in_cases :=
  repeat match goal with
    | H : In _ (_ :: _) |- _ => destruct H as [H | H]; [try subst |]
    | H : In _ [] |- _ => destruct H
    | H : _ \/ _ |- _ => destruct H as [H | H]; [try subst |]
    | H : False |- _ => destruct H
    end.

(** C2: whenever key derivation or blob decryption throws during a run of
    [consumeFork] (which happens only for an sso payload that passed the
    gate, after the three network calls), the caller sees exactly
    [InvalidForkConsumeError('Failed to decrypt fork payload')], whatever
    the collaborators threw. *)
Theorem consumeFork_decryption_failure_normalized imports options ev e :
  In ev (snd (run (consumeFork imports options))) ->
  is_decryption ev = true ->
  failure ev = Some e ->
  fst (run (consumeFork imports options)) = inl failed_to_decrypt.
Proof.
  run_cases options; intros Hin Hdec Hfail; simpl in Hin; in_cases;
    simpl in Hdec, Hfail; try discriminate; reflexivity.
Qed.

(** C5: a secure payload with non-empty selector and state never reaches
    key derivation or decryption, whatever the collaborators do; a run in
    which no call fails returns a session, and a returned session carries
    the caller's [keyPassword] unchanged. *)
Theorem consumeFork_secure_keyPassword imports api apiUrl st sel keyPassword :
  sel <> [] -> st <> [] ->
  let options := {| api := api; apiUrl := apiUrl;
                    payload := Secure st sel keyPassword |} in
  let out := run (consumeFork imports options) in
  (forall ev, In ev (snd out) -> is_decryption ev = false)
  /\ ((forall ev, In ev (snd out) -> failure ev = None) ->
      exists session, fst out = inr session)
  /\ (forall session, fst out = inr session ->
      AuthSession.keyPassword session = keyPassword).
Proof.
  intros Hsel Hst options out. subst out options.
  apply truthy_true in Hsel. apply truthy_true in Hst.
  exec. unfold validFork. simpl. rewrite Hsel, Hst. simpl.
  repeat split_call; (split; [| split]).
  all: try (intros ev Hin; simpl in Hin; in_cases; reflexivity).
  all: try (intros session [= <-]; reflexivity).
  all: try (intros session [=]).
  all: try (eexists; reflexivity).
  all: intros Hok; exfalso; simpl in Hok.
  all: first
         [ pose proof (Hok _ (or_introl eq_refl)) as F; discriminate F
         | pose proof (Hok _ (or_intror (or_introl eq_refl))) as F; discriminate F
         | pose proof (Hok _ (or_intror (or_intror (or_introl eq_refl)))) as F;
           discriminate F ].
Qed.

(** C9: every call of [getKey] made by [consumeFork] is made by an sso
    payload that passed the gate, and its argument [payload.key!] is the
    key carried by the payload: an absent key never reaches [getKey]. *)
Theorem consumeFork_key_defined_when_decrypting imports options raw result :
  In (EvGetKey raw result) (snd (run (consumeFork imports options))) ->
  exists localState st sel key version,
    payload options = Sso (Some localState) st sel (Some key) version
    /\ raw = Some key.
Proof.
  run_cases options; intros Hin; simpl in Hin; in_cases; try discriminate.
  all: match goal with H : EvGetKey _ _ = EvGetKey _ _ |- _ => injection H as <- _ end.
  all: unfold validFork in *; simpl in *.
  all: destruct localState, key; simpl in *; try discriminate; eauto 10.
Qed.

#[local] Arguments pullForkRequest : simpl never.
#[local] Arguments refreshRequest : simpl never.
#[local] Arguments userRequest : simpl never.

Lemma pullForkRequest_eq imports api apiUrl p :
  set_url (pullForkSession imports (selector p))
    (match apiUrl with
     | Some prefix =>
         if truthy prefix
         then prefix ++ js "/" ++ url (pullForkSession imports (selector p))
         else url (pullForkSession imports (selector p))
     | None => url (pullForkSession imports (selector p))
     end)
  = pullForkRequest imports {| api := api; apiUrl := apiUrl; payload := p |}.
Proof. unfold pullForkRequest. simpl. destruct apiUrl as [[| c u] |]; reflexivity. Qed.

(** A run that passed the gate has one of the shapes of [network_chain]. *)
Lemma consumeFork_chain imports options :
  validFork (payload options) = true ->
  network_chain imports options (run (consumeFork imports options)).
Proof.
  intros Hv. destruct options as [api apiUrl p]. simpl in Hv.
  exec. rewrite Hv. simpl.
  pose proof (pullForkRequest_eq imports api apiUrl p) as Hreq.
  simpl in Hreq. rewrite Hreq. clear Hreq.
  set (options := {| api := api; apiUrl := apiUrl; payload := p |}).
  destruct (api PullFork [] (pullForkRequest imports options)) as [e | pull] eqn:E1;
    [apply chain_pull_fails; exact E1 |].
  change (withUIDHeaders imports (PullForkResponse.UID pull)
            (refreshTokens imports (PullForkResponse.RefreshToken pull)))
    with (refreshRequest imports pull).
  simpl.
  destruct (api RefreshSession _ (refreshRequest imports pull)) as [e | refresh] eqn:E2;
    [apply chain_refresh_fails; assumption |].
  change (withAuthHeaders imports (PullForkResponse.UID pull)
            (RefreshSessionResponse.AccessToken refresh) (getUser imports))
    with (userRequest imports pull refresh).
  simpl.
  destruct (api GetUser _ (userRequest imports pull refresh)) as [e | user] eqn:E3;
    [apply chain_user_fails; assumption |].
  destruct p as [localState st sel key version | st sel keyPassword]; simpl.
  - repeat split_call;
      match goal with
      | |- network_chain _ _ (_, _ :: _ :: _ :: ?rest) =>
          apply (@chain_complete imports options pull refresh user _ rest);
            try assumption; try reflexivity; eauto
      end.
  - apply (@chain_complete imports options pull refresh user _ []);
      try assumption; try reflexivity; eauto.
Qed.

(** C3: once the gate is passed, [consumeFork] makes at most three network
    calls, pull-fork, refresh and get-user in that order, the refresh
    request built from the pull-fork answer (UID, RefreshToken) and the
    user request from the UID and the refreshed AccessToken; a network call
    that fails ends the run with that very error as the outcome; a session
    is returned only after the three calls succeeded; and what follows them
    is only the key-password resolution, the one step whose failure is
    replaced by ['Failed to decrypt fork payload']. *)
Theorem consumeFork_network_chain imports options :
  validFork (payload options) = true ->
  let out := run (consumeFork imports options) in
  network_chain imports options out
  /\ (forall ev e, In ev (snd out) -> is_api ev = true -> failure ev = Some e ->
        fst out = inl e /\ exists before, snd out = before ++ [ev])
  /\ (forall session, fst out = inr session ->
        exists pull refresh user rest,
          snd out = EvApi PullFork (pullForkRequest imports options) (inr pull)
                    :: EvApi RefreshSession (refreshRequest imports pull) (inr refresh)
                    :: EvApi GetUser (userRequest imports pull refresh) (inr user)
                    :: rest
          /\ filter is_api rest = []).
Proof.
  intros Hv out. pose proof (consumeFork_chain imports options Hv) as Hc.
  fold out in Hc. split; [exact Hc |].
  assert (Hno : forall rest, forallb is_decryption rest = true -> filter is_api rest = []).
  { induction rest as [| ev rest IH]; simpl; [reflexivity |].
    rewrite andb_true_iff. intros [H1 H2]. destruct ev; simpl in *; try discriminate; auto. }
  destruct Hc; simpl; split.
  all: try (intros session [=]; fail).
  all: try (intros ev' e' Hin Hapi Hfail; in_cases; simpl in Hfail; try discriminate;
            injection Hfail as <-; split; [reflexivity |];
            first [ exists []; reflexivity | exists [ev1]; reflexivity
                  | exists [ev1; ev2]; reflexivity ]).
  - intros ev e' Hin Hapi Hfail. exfalso.
    destruct Hin as [<- | [<- | [<- | Hin]]]; try discriminate Hfail.
    match goal with H : forallb _ rest = true |- _ => apply Hno in H; rename H into Hr end.
    assert (Hf : In ev (filter is_api rest)) by (apply filter_In; auto).
    rewrite Hr in Hf. destruct Hf.
  - intros session Hs. exists pull, refresh, user, rest. auto.
Qed.

(** C4: a session returned by [consumeFork] takes [AccessToken] and
    [RefreshToken] from the refresh answer, [UID] and [LocalID] from the
    pull-fork answer, [UserID] from the fetched user's [ID], and
    [keyPassword] from the resolved key password: the caller's one in
    secure mode, the decrypted blob's one (or the empty string) in sso
    mode. *)
Theorem consumeFork_session_fields imports options session :
  fst (run (consumeFork imports options)) = inr session ->
  exists c1 pull c2 refresh c3 user rest,
    snd (run (consumeFork imports options))
    = EvApi PullFork c1 (inr pull) :: EvApi RefreshSession c2 (inr refresh)
      :: EvApi GetUser c3 (inr user) :: rest
    /\ match payload options with
       | Secure _ _ keyPassword =>
           rest = [] /\ AuthSession.keyPassword session = keyPassword
       | Sso _ _ _ key version =>
           exists k blob,
             rest = [EvGetKey key (inr k);
                     EvGetForkDecryptedBlob k (PullForkResponse.Payload pull)
                       version (inr blob)]
             /\ AuthSession.keyPassword session = keyPassword_of blob
       end
    /\ session =
       {| AuthSession.AccessToken := RefreshSessionResponse.AccessToken refresh;
          AuthSession.keyPassword := AuthSession.keyPassword session;
          AuthSession.LocalID := PullForkResponse.LocalID pull;
          AuthSession.RefreshToken := RefreshSessionResponse.RefreshToken refresh;
          AuthSession.UID := PullForkResponse.UID pull;
          AuthSession.UserID := User.ID (UserResponse.User user) |}.
Proof.
  run_cases options; intros [= <-]; simpl.
  all: do 7 eexists; split; [reflexivity |]; split; [| reflexivity].
  - do 2 eexists. split; reflexivity.
  - split; reflexivity.
Qed.

(** ** The scenario of the specification, run *)

Import ForkScenario.

Example consumeFork_end_to_end :
  fst (run (consumeFork decrypts_to_pw sso_options)) = inr scenario_session.
Proof. reflexivity. Qed.

Example consumeFork_end_to_end_calls :
  map failure (snd (run (consumeFork decrypts_to_pw sso_options)))
  = [None; None; None; None; None]
  /\ map is_api (snd (run (consumeFork decrypts_to_pw sso_options)))
     = [true; true; true; false; false].
Proof. split; reflexivity. Qed.

Example consumeFork_apiUrl_prefix :
  hd_error (snd (run (consumeFork decrypts_to_pw secure_options)))
  = Some (EvApi PullFork
            {| url := js "https://pass-api.example/auth/v4/sessions/forks/selector-1";
               method := js "get"; headers := []; data := [] |}
            (scenario_api PullFork [] (getUser decrypts_to_pw))).
Proof. reflexivity. Qed.

Example consumeFork_network_failure_unwrapped :
  fst (run (consumeFork decrypts_to_pw
              {| api := refresh_rejected; apiUrl := None;
                 payload := payload sso_options |}))
  = inl (Thrown (js "StatusCodeError: 401"))
  /\ map is_api
       (snd (run (consumeFork decrypts_to_pw
                    {| api := refresh_rejected; apiUrl := None;
                       payload := payload sso_options |})))
     = [true; true].
Proof. split; reflexivity. Qed.

Example consumeFork_decryption_failure :
  run (consumeFork decryption_throws sso_options)
  = (inl failed_to_decrypt,
     firstn 4 (snd (run (consumeFork decrypts_to_pw sso_options)))
     ++ [EvGetForkDecryptedBlob (CryptoKeyHandle 1) (js "enc...") V2
           (inl (Thrown (js "OperationError")))]).
Proof. reflexivity. Qed.

Lemma consumeFork_decryption_failure_normalized_witness :
  fst (run (consumeFork decryption_throws sso_options)) = inl failed_to_decrypt.
Proof.
  apply (consumeFork_decryption_failure_normalized decryption_throws sso_options
           (EvGetForkDecryptedBlob (CryptoKeyHandle 1) (js "enc...") V2
              (inl (Thrown (js "OperationError"))))
           (Thrown (js "OperationError"))).
  - vm_compute. do 4 right. left. reflexivity.
  - reflexivity.
  - reflexivity.
Defined.

Lemma consumeFork_network_chain_witness :
  validFork (payload sso_options) = true
  /\ network_chain decrypts_to_pw sso_options
       (run (consumeFork decrypts_to_pw sso_options)).
Proof.
  split; [reflexivity |].
  exact (proj1 (consumeFork_network_chain decrypts_to_pw sso_options eq_refl)).
Defined.

(** C3 as stated: a run that succeeds has made three network calls, not
    four; in secure mode they are all the collaborator calls there are. *)
Lemma consumeFork_four_network_calls_counterexample :
  fst (run (consumeFork decrypts_to_pw secure_options)) = inr scenario_session
  /\ List.length (snd (run (consumeFork decrypts_to_pw secure_options))) <> 4%nat
  /\ List.length (filter is_api (snd (run (consumeFork decrypts_to_pw secure_options))))
     <> 4%nat
  /\ fst (run (consumeFork decrypts_to_pw sso_options)) = inr scenario_session
  /\ List.length (filter is_api (snd (run (consumeFork decrypts_to_pw sso_options))))
     <> 4%nat.
Proof. repeat split; try reflexivity; vm_compute; discriminate. Qed.

Lemma consumeFork_session_fields_witness :
  fst (run (consumeFork decrypts_to_pw sso_options)) = inr scenario_session
  /\ exists c1 pull c2 refresh c3 user rest,
       snd (run (consumeFork decrypts_to_pw sso_options))
       = EvApi PullFork c1 (inr pull) :: EvApi RefreshSession c2 (inr refresh)
         :: EvApi GetUser c3 (inr user) :: rest
       /\ match payload sso_options with
          | Secure _ _ keyPassword =>
              rest = [] /\ AuthSession.keyPassword scenario_session = keyPassword
          | Sso _ _ _ key version =>
              exists k blob,
                rest = [EvGetKey key (inr k);
                        EvGetForkDecryptedBlob k (PullForkResponse.Payload pull)
                          version (inr blob)]
                /\ AuthSession.keyPassword scenario_session = keyPassword_of blob
          end
       /\ scenario_session =
          {| AuthSession.AccessToken := RefreshSessionResponse.AccessToken refresh;
             AuthSession.keyPassword := AuthSession.keyPassword scenario_session;
             AuthSession.LocalID := PullForkResponse.LocalID pull;
             AuthSession.RefreshToken := RefreshSessionResponse.RefreshToken refresh;
             AuthSession.UID := PullForkResponse.UID pull;
             AuthSession.UserID := User.ID (UserResponse.User user) |}.
Proof.
  split; [reflexivity |].
  apply (consumeFork_session_fields decrypts_to_pw sso_options scenario_session).
  reflexivity.
Defined.

Lemma consumeFork_key_defined_when_decrypting_witness :
  In (EvGetKey (Some raw_key) (inr (CryptoKeyHandle 1)))
    (snd (run (consumeFork decrypts_to_pw sso_options)))
  /\ exists localState st sel key version,
       payload sso_options = Sso (Some localState) st sel (Some key) version
       /\ Some raw_key = Some key.
Proof.
  assert (Hin : In (EvGetKey (Some raw_key) (inr (CryptoKeyHandle 1)))
                  (snd (run (consumeFork decrypts_to_pw sso_options))))
    by (vm_compute; do 3 right; left; reflexivity).
  split; [exact Hin |].
  exact (consumeFork_key_defined_when_decrypting decrypts_to_pw sso_options
           (Some raw_key) (inr (CryptoKeyHandle 1)) Hin).
Defined.

Lemma consumeFork_secure_keyPassword_witness :
  js "selector-1" <> [] /\ js "state-1" <> []
  /\ (forall ev,
        In ev (snd (run (consumeFork decrypts_to_pw secure_options))) ->
        is_decryption ev = false)
  /\ (forall session,
        fst (run (consumeFork decrypts_to_pw secure_options)) = inr session ->
        AuthSession.keyPassword session = js "pw").
Proof.
  assert (H1 : js "selector-1" <> []) by (vm_compute; discriminate).
  assert (H2 : js "state-1" <> []) by (vm_compute; discriminate).
  pose proof (consumeFork_secure_keyPassword decrypts_to_pw scenario_api
                (Some (js "https://pass-api.example"))
                (js "state-1") (js "selector-1") (js "pw") H1 H2) as H.
  simpl in H. destruct H as (Hno & _ & Hkp).
  repeat split; assumption.
Defined.

End ForkProofs.

Module CacheProofs.
Import Cache CacheSpec.

(** A [try] whose [catch] block is empty returns normally, and has made
    the calls of its body. *)
Lemma try_catch_swallows {Ev} (m : M (Ev := Ev) unit) tr :
  try_catch m (fun _ => ret tt) tr = (inr tt, snd (m tr)).
Proof.
  unfold try_catch, ret. destruct (m tr) as [[e | []] tr']; reflexivity.
Qed.

Lemma bind_perform_eq {Ev R B} (f : list Ev -> Exn + R) (log : Exn + R -> Ev)
    (k : R -> M B) (tr : list Ev) :
  bind (perform f log) k tr
  = match f tr with
    | inl e => (inl e, tr ++ [log (inl e)])
    | inr a => k a (tr ++ [log (inr a)])
    end.
Proof. unfold bind, perform. cbv zeta. destruct (f tr); reflexivity. Qed.

Lemma bind_pure_eq {State Snapshot A B} (r : Exn + A)
    (k : A -> M B) (tr : list (Event State Snapshot)) :
  bind (pure r) k tr
  = match r with inl e => (inl e, tr) | inr a => k a tr end.
Proof. unfold bind, pure. destruct r; reflexivity. Qed.

Lemma bind_ret_eq {Ev A B} (a : A) (k : A -> M B) (tr : list Ev) :
  bind (ret a) k tr = k a tr.
Proof. reflexivity. Qed.

Section Saga.
Variables State Snapshot : Type.
Variable imports : Imports State Snapshot.

Let Ev : Type := Event State Snapshot.

Lemma writes_snoc (tr : list Ev) (ev : Ev) :
  writes (tr ++ [ev])
  = writes tr ++ (if is_write ev then [written_key ev] else []).
Proof.
  unfold writes. rewrite filter_app, map_app. cbn [filter].
  destruct (is_write ev); reflexivity.
Qed.

Lemma perform_no_write {R} (f : list Ev -> Exn + R) (log : Exn + R -> Ev) :
  (forall r, is_write (log r) = false) -> no_write (perform f log).
Proof.
  intros H tr. unfold perform. cbn [snd]. rewrite writes_snoc, H. apply app_nil_r.
Qed.

Lemma pure_no_write {A} (r : Exn + A) : no_write (@pure State Snapshot A r).
Proof. intros tr. reflexivity. Qed.

Lemma wait_no_write ms : no_write (wait imports ms).
Proof. apply perform_no_write. intros r. reflexivity. Qed.

Lemma hasSession_no_write : no_write (hasSession imports).
Proof.
  unfold hasSession. destruct (authentication_hasSession imports) as [f |].
  - apply perform_no_write. intros r. reflexivity.
  - intros tr. reflexivity.
Qed.

Lemma ret_in_order {A} (a : A) : writes_in_order (ret (Ev := Ev) a).
Proof. intros tr H. exists 0%nat. exact H. Qed.

(** Steps that write nothing can be put in front. *)
Lemma bind_in_order {A B} (m : M A) (k : A -> M (Ev := Ev) B) :
  no_write m -> (forall a, writes_in_order (k a)) -> writes_in_order (bind m k).
Proof.
  intros Hm Hk tr Htr. unfold bind.
  pose proof (Hm tr) as Hw. destruct (m tr) as [[e | a] tr']; cbn [snd] in *.
  - exists 0%nat. rewrite Hw. exact Htr.
  - apply Hk. rewrite Hw. exact Htr.
Qed.

(** The three writes, the first failure ending them. *)
Lemma setItems_in_order salt state snapshot :
  writes_in_order
    (_ <- setItem imports (js "salt") salt ;;
     _ <- setItem imports (js "state") state ;;
     _ <- setItem imports (js "snapshot") snapshot ;;
     ret tt).
Proof.
  intros tr Htr. unfold bind, setItem, perform, ret.
  destruct (browserLocalStorage_setItem _ _ imports tr _ _) as [e1 | []];
    cbn [snd]; [exists 1%nat; rewrite writes_snoc, Htr; reflexivity |].
  destruct (browserLocalStorage_setItem _ _ imports _ (js "state") _) as [e2 | []];
    cbn [snd]; [exists 2%nat; rewrite !writes_snoc, Htr; reflexivity |].
  destruct (browserLocalStorage_setItem _ _ imports _ (js "snapshot") _) as [e3 | []];
    cbn [snd]; exists 3%nat; rewrite !writes_snoc, Htr; reflexivity.
Qed.

Lemma cacheWorker_in_order action : writes_in_order (cacheWorker imports action).
Proof.
  unfold cacheWorker.
  apply bind_in_order; [apply wait_no_write |]. intros _.
  apply bind_in_order; [apply hasSession_no_write |]. intros [|];
    [| apply ret_in_order].
  intros tr Htr. rewrite try_catch_swallows. cbn [snd]. revert tr Htr.
  repeat (apply bind_in_order;
          [first [ apply pure_no_write
                 | apply perform_no_write; intros r; reflexivity ] |];
          intros ?).
  apply setItems_in_order.
Qed.

Lemma perform_extends {R} (f : list Ev -> Exn + R) (log : Exn + R -> Ev) :
  extends_log (perform f log).
Proof. intros tr. eexists. reflexivity. Qed.

Lemma pure_extends {A} (r : Exn + A) : extends_log (@pure State Snapshot A r).
Proof. intros tr. exists []. symmetry. apply app_nil_r. Qed.

Lemma ret_extends {A} (a : A) : extends_log (ret (Ev := Ev) a).
Proof. intros tr. exists []. symmetry. apply app_nil_r. Qed.

Lemma bind_extends {A B} (m : M A) (k : A -> M (Ev := Ev) B) :
  extends_log m -> (forall a, extends_log (k a)) -> extends_log (bind m k).
Proof.
  intros Hm Hk tr. unfold bind. destruct (Hm tr) as [calls Hc].
  destruct (m tr) as [[e | a] tr']; cbn [snd] in *.
  - exists calls. exact Hc.
  - destruct (Hk a tr') as [calls' Hc']. exists (calls ++ calls').
    rewrite Hc', Hc. symmetry. apply app_assoc.
Qed.

(** The outcome of a run, by what the two calls made outside the [try]
    answer. *)
Lemma cacheWorker_outcome action :
  let outcome := fst (run (cacheWorker imports action)) in
  let calls := snd (run (cacheWorker imports action)) in
  (exists e, outcome = inl e /\ calls = [EvWait 500 (inl e)])
  \/ (exists e, outcome = inl e
                /\ calls = [EvWait 500 (inr tt); EvHasSession (inl e)])
  \/ (outcome = inr tt /\ calls = [EvWait 500 (inr tt)])
  \/ (outcome = inr tt
      /\ calls = [EvWait 500 (inr tt); EvHasSession (inr false)])
  \/ (outcome = inr tt
      /\ exists rest,
           calls = EvWait 500 (inr tt) :: EvHasSession (inr true) :: rest).
Proof.
  unfold run, cacheWorker, wait. rewrite bind_perform_eq.
  destruct (promise_wait imports [] 500) as [e | []]; cbn [fst snd app].
  { left. exists e. split; reflexivity. }
  unfold hasSession.
  destruct (authentication_hasSession imports) as [f |];
    [| rewrite bind_ret_eq; right; right; left; split; reflexivity].
  rewrite bind_perform_eq.
  destruct (f [EvWait 500 (inr tt)]) as [e | [|]]; cbn [fst snd app].
  - right; left. exists e. split; reflexivity.
  - do 4 right. rewrite try_catch_swallows. split; [reflexivity |]. cbn [snd].
    match goal with
    | |- exists rest, snd (?m ?tr) = _ =>
        assert (He : extends_log m); [| destruct (He tr) as [rest Hr]]
    end.
    + unfold setItem.
      repeat (apply bind_extends;
              [first [apply pure_extends | apply perform_extends] |];
              intros ?).
      apply ret_extends.
    + exists rest. exact Hr.
  - do 3 right; left. split; reflexivity.
Qed.

End Saga.

(** C10: [cacheWorker] raises an error to its caller exactly when
    [wait(500)] or [hasSession()], the two calls made before the [try],
    throws: the error is that one and the call is the last one made.  As
    soon as a call of the [try] block has been made the saga returns
    normally, whatever that call and the following ones do, throwing
    included.  Unless [hasSession()] answered true, only these two calls
    are made and nothing is written to storage; and what is written is, in
    order, some first part of ['salt'], ['state'], ['snapshot']. *)
Theorem cacheWorker_throws_only_outside_try State Snapshot
    (imports : Imports State Snapshot) (action : AnyAction) :
  let outcome := fst (run (cacheWorker imports action)) in
  let calls := snd (run (cacheWorker imports action)) in
  (forall e, outcome = inl e <->
     calls = [EvWait 500 (inl e)]
     \/ calls = [EvWait 500 (inr tt); EvHasSession (inl e)])
  /\ (forall ev, In ev calls -> outside_try ev = false -> outcome = inr tt)
  /\ (~ In (EvHasSession (inr true)) calls ->
      writes calls = [] /\ forall ev, In ev calls -> outside_try ev = true)
  /\ exists n,
       writes calls
       = firstn n [Some (js "salt"); Some (js "state"); Some (js "snapshot")].
Proof.
  intros outcome calls.
  pose proof (cacheWorker_outcome State Snapshot imports action) as H.
  pose proof (cacheWorker_in_order State Snapshot imports action [] eq_refl) as Hw.
  fold outcome calls in H. cbv zeta in H. fold calls in Hw.
  split; [| split; [| split; [| exact Hw]]].
  - intros e.
    destruct H as [(e' & -> & ->) | [(e' & -> & ->) | [[-> ->] | [[-> ->] |
      (-> & rest & ->)]]]]; split;
      try (intros [= ->]); try (intros [[=] | [=]]); subst; auto; discriminate.
  - intros ev Hin Hev.
    destruct H as [(e' & _ & Hc) | [(e' & _ & Hc) | [[Ho _] | [[Ho _] |
      (Ho & _)]]]]; try exact Ho;
      rewrite Hc in Hin; cbn [In] in Hin;
      repeat (destruct Hin as [<- | Hin]; [discriminate Hev |]);
      destruct Hin.
  - intros Hno.
    destruct H as [(e' & _ & Hc) | [(e' & _ & Hc) | [[_ Hc] | [[_ Hc] |
      (_ & rest & Hc)]]]]; rewrite Hc in *;
      try (split; [reflexivity |]; intros ev Hin; cbn [In] in Hin;
           repeat (destruct Hin as [<- | Hin]; [reflexivity |]);
           destruct Hin).
    exfalso. apply Hno. right. left. reflexivity.
Qed.

(** A session check that throws: the error reaches the caller of the
    saga. *)
Lemma cacheWorker_never_throws_counterexample :
  run (cacheWorker session_check_throws test_action)
  = (inl (Thrown (js "TypeError")),
     [EvWait 500 (inr tt); EvHasSession (inl (Thrown (js "TypeError")))]).
Proof. vm_compute. reflexivity. Qed.

(** A key derivation that throws inside the [try]: the saga returns
    normally and has written nothing. *)
Example cacheWorker_key_derivation_throws :
  run (cacheWorker key_derivation_throws test_action)
  = (inr tt,
     [EvWait 500 (inr tt); EvHasSession (inr true);
      EvSelectSessionLockToken (inr (Some (js "lock")));
      EvGetRandomValues 4 (inr (repeat x07 4));
      EvGetCacheEncryptionKey (repeat x07 4) (Some (js "lock"))
        (inl (Thrown (js "OperationError")))]).
Proof. vm_compute. reflexivity. Qed.

End CacheProofs.

Module StrFacts.
Import Str.

Lemma lastIndexOf_fold s c i found :
  fold_left (lastIndexOf_step c) s (i, found)
  = ((i + Z.of_nat (List.length s))%Z,
     snd (fold_left (lastIndexOf_step c) s (i, found))).
Proof.
  revert i found. induction s as [| x s IH]; intros i found; simpl.
  - f_equal. lia.
  - rewrite IH. simpl. f_equal. lia.
Qed.

Lemma lastIndexOf_absent s c i found :
  includes s c = false ->
  snd (fold_left (lastIndexOf_step c) s (i, found)) = found.
Proof.
  unfold includes. revert i found.
  induction s as [| x s IH]; intros i found H; simpl in *; [reflexivity |].
  apply orb_false_iff in H. destruct H as [Hx Hs].
  rewrite Hx. apply IH. exact Hs.
Qed.

Lemma lastIndexOf_none s c : includes s c = false -> lastIndexOf s c = (-1)%Z.
Proof. intros H. apply (lastIndexOf_absent s c 0 (-1) H). Qed.

(** The index found is that of the last occurrence. *)
Lemma lastIndexOf_last pre suf c :
  includes suf c = false ->
  lastIndexOf (pre ++ c :: suf) c = Z.of_nat (List.length pre).
Proof.
  intros H. unfold lastIndexOf.
  rewrite fold_left_app, lastIndexOf_fold. simpl.
  rewrite N.eqb_refl. rewrite lastIndexOf_absent by exact H. lia.
Qed.

Ltac slice_tests :=
  repeat match goal with
    | |- context [(?a <? ?b)%Z] => destruct (Z.ltb_spec a b); try lia
    | |- context [(?a >=? ?b)%Z] =>
        rewrite (Z.geb_leb a b); destruct (Z.leb_spec b a); try lia
    end.

Lemma slice_from_start s : slice s 0 None = s.
Proof.
  unfold slice.
  pose proof (Zle_0_nat (List.length s)) as Hlen.
  rewrite Z.min_id.
  slice_tests.
  - destruct s; [reflexivity | simpl in *; lia].
  - rewrite Z.min_l by lia. rewrite Z.sub_0_r, Nat2Z.id. simpl skipn.
    apply firstn_all.
Qed.

Lemma slice_after pre x suf :
  slice (pre ++ x :: suf) (Z.of_nat (List.length pre) + 1) None = suf.
Proof.
  unfold slice.
  assert (Hlen : Z.of_nat (List.length (pre ++ x :: suf))
                 = (Z.of_nat (List.length pre) + 1 + Z.of_nat (List.length suf))%Z).
  { rewrite length_app. simpl. lia. }
  rewrite Hlen, Z.min_id.
  slice_tests.
  - destruct suf; [reflexivity | simpl in *; lia].
  - rewrite Z.min_l by lia.
    replace (Z.to_nat (Z.of_nat (List.length pre) + 1))
      with (List.length (pre ++ [x])) by (rewrite length_app; simpl; lia).
    replace (pre ++ x :: suf) with ((pre ++ [x]) ++ suf)
      by (rewrite <- app_assoc; reflexivity).
    rewrite skipn_app, skipn_all, Nat.sub_diag. simpl.
    replace (Z.to_nat _) with (List.length suf) by lia.
    apply firstn_all.
Qed.

Lemma slice_first_100 s : slice s 0 (Some 100%Z) = firstn 100 s.
Proof.
  unfold slice.
  pose proof (Zle_0_nat (List.length s)) as Hlen.
  slice_tests.
  - destruct s; [reflexivity | simpl in *; lia].
  - rewrite (Z.min_l 0) by lia. rewrite Z.sub_0_r. simpl skipn.
    destruct (Z.le_gt_cases (Z.of_nat (List.length s)) 100) as [Hle | Hgt].
    + rewrite Z.min_r by exact Hle.
      rewrite Nat2Z.id, firstn_all. symmetry. apply firstn_all2. lia.
    + rewrite Z.min_l by lia. reflexivity.
Qed.

End StrFacts.

Module ConsumeForkParametersProofs.
Import Str StrFacts URLSearchParams ConsumeForkParameters.
Import ConsumeForkParametersSpec.

Lemma eqb_eq (a b : jsstring) : eqb a b = true <-> a = b.
Proof. unfold eqb. destruct (list_eq_dec N.eq_dec a b); split; congruence. Qed.

Section Parser.
Variable FORK_TYPE : Type.
Variable getValidatedRawKey : jsstring -> option Uint8Array.
Variable getValidatedForkType : jsstring -> option FORK_TYPE.

Lemma or_empty_get (o : option jsstring) :
  or_empty o = match o with Some s => s | None => [] end.
Proof. destruct o as [[| c s] |]; reflexivity. Qed.

(** C7: the [state] returned is the first 100 code units of the raw
    [state] parameter, so exactly 100 of them when the parameter is longer,
    and [selector] and [state] are the empty string when their parameter is
    absent. *)
Theorem getConsumeForkParameters_state_truncated (location_hash : jsstring) :
  let params := hashParams location_hash in
  let result :=
    getConsumeForkParameters FORK_TYPE getValidatedRawKey getValidatedForkType
      location_hash in
  state result
  = match get params (js "state") with Some raw => firstn 100 raw | None => [] end
  /\ List.length (state result)
     = match get params (js "state") with
       | Some raw => Nat.min 100 (List.length raw)
       | None => 0%nat
       end
  /\ selector result
     = match get params (js "selector") with Some raw => raw | None => [] end.
Proof.
  intros params result. subst result. unfold getConsumeForkParameters.
  fold params. cbn [state selector].
  rewrite slice_first_100, !or_empty_get.
  destruct (get params (js "state")) as [raw |]; repeat split;
    try reflexivity.
  apply length_firstn.
Qed.

(** What follows the last [#] is what is parsed. *)
Lemma hashParams_after_last_hash pre suf :
  includes suf hash_sign = false ->
  hashParams (pre ++ hash_sign :: suf) = URLSearchParams.of_string suf.
Proof.
  intros H. unfold hashParams.
  rewrite lastIndexOf_last by exact H. rewrite slice_after. reflexivity.
Qed.

Lemma hashParams_no_hash s :
  includes s hash_sign = false -> hashParams s = URLSearchParams.of_string s.
Proof.
  intros H. unfold hashParams.
  rewrite lastIndexOf_none by exact H. simpl. rewrite slice_from_start. reflexivity.
Qed.

(** C8: when the hash is [pre ++ '#' ++ suf] with no [#] in [suf], that is,
    when [suf] starts right after the last [#], the parameters returned
    are those of [suf]: every field is read from the first parameter of its
    name in [suf], and nothing before the last [#] has any effect, extra
    [#] and parameters of the same names included. *)
Theorem getConsumeForkParameters_after_last_hash (pre suf : jsstring) :
  includes suf hash_sign = false ->
  let params := URLSearchParams.of_string suf in
  let result :=
    getConsumeForkParameters FORK_TYPE getValidatedRawKey getValidatedForkType
      (pre ++ hash_sign :: suf) in
  hashParams (pre ++ hash_sign :: suf) = params
  /\ selector result = parameter params "selector"
  /\ state result = firstn 100 (parameter params "state")
  /\ key result
     = match parameter params "sk" with
       | [] => None
       | base64StringKey => getValidatedRawKey base64StringKey
       end
  /\ type result = getValidatedForkType (parameter params "t")
  /\ (persistent result = true <-> parameter params "p" = js "1")
  /\ (trusted result = true <-> parameter params "tr" = js "1")
  /\ (version result = Fork.V2 <-> parameter params "v" = js "2")
  /\ (version result = Fork.V1 <-> parameter params "v" <> js "2")
  /\ result
     = getConsumeForkParameters FORK_TYPE getValidatedRawKey getValidatedForkType
         suf.
Proof.
  intros H params result.
  pose proof (hashParams_after_last_hash pre suf H) as Hp. fold params in Hp.
  assert (Hsuf : result
                 = getConsumeForkParameters FORK_TYPE getValidatedRawKey
                     getValidatedForkType suf).
  { subst result. unfold getConsumeForkParameters.
    rewrite Hp, hashParams_no_hash by exact H. reflexivity. }
  split; [exact Hp |].
  repeat match goal with |- _ /\ _ => split end; try exact Hsuf; clear Hsuf;
    subst result; unfold getConsumeForkParameters; rewrite Hp;
    cbn [selector state key type persistent trusted version];
    rewrite ?slice_first_100, !or_empty_get;
    try (unfold parameter; reflexivity).
  - unfold parameter. destruct (get params (js "sk")) as [[| c sk] |]; reflexivity.
  - apply eqb_eq.
  - apply eqb_eq.
  - fold (parameter params "v"). pose proof (eqb_eq (parameter params "v") (js "2")) as Hv.
    destruct (eqb (parameter params "v") (js "2")); split; intros Hx;
      try reflexivity; try discriminate Hx.
    + apply Hv. reflexivity.
    + apply Hv in Hx. discriminate Hx.
  - fold (parameter params "v"). pose proof (eqb_eq (parameter params "v") (js "2")) as Hv.
    destruct (eqb (parameter params "v") (js "2")); split; intros Hx;
      try reflexivity; try discriminate Hx.
    + exfalso. apply Hx. apply Hv. reflexivity.
    + intros Hy. apply Hv in Hy. discriminate Hy.
Qed.


End Parser.

Import ForkUrlScenario.

Example getConsumeForkParameters_nested_hash :
  getConsumeForkParameters unit no_key no_type nested_hash
  = {| state := js "xyz"; selector := js "abc"; key := None; type := None;
       persistent := false; trusted := false; version := Fork.V2 |}.
Proof. vm_compute. reflexivity. Qed.

Example getConsumeForkParameters_long_state :
  List.length
    (state (getConsumeForkParameters unit no_key no_type
              (js "#selector=s&state=" ++ repeat 97%N 250)))
  = 100%nat.
Proof. vm_compute. reflexivity. Qed.

Example getConsumeForkParameters_empty_hash :
  getConsumeForkParameters unit no_key no_type []
  = {| state := []; selector := []; key := None; type := None;
       persistent := false; trusted := false; version := Fork.V1 |}.
Proof. vm_compute. reflexivity. Qed.

Lemma getConsumeForkParameters_after_last_hash_witness :
  includes (js "selector=abc&state=xyz&v=2") hash_sign = false
  /\ selector (getConsumeForkParameters unit no_key no_type nested_hash) = js "abc"
  /\ state (getConsumeForkParameters unit no_key no_type nested_hash) = js "xyz"
  /\ version (getConsumeForkParameters unit no_key no_type nested_hash) = Fork.V2.
Proof.
  split; [reflexivity |].
  destruct (getConsumeForkParameters_after_last_hash unit no_key no_type
              (js "#selector=old&state=stale") (js "selector=abc&state=xyz&v=2")
              eq_refl)
    as (_ & Hselector & Hstate & _ & _ & _ & _ & Hversion & _).
  split; [exact Hselector |]. split; [exact Hstate |].
  apply Hversion. reflexivity.
Defined.

End ConsumeForkParametersProofs.

Module Base64Proofs.
Import Base64.
#[local] Open Scope N_scope.

(** The URL-safe character of a 6-bit value, by range. *)
Lemma alphabet_spec v :
  (v < 26 /\ url_safe_char (alphabet v) = 65 + v)
  \/ (26 <= v < 52 /\ url_safe_char (alphabet v) = 71 + v)
  \/ (52 <= v < 62 /\ url_safe_char (alphabet v) = v - 4)
  \/ (v = 62 /\ url_safe_char (alphabet v) = 45)
  \/ (62 < v /\ url_safe_char (alphabet v) = 95).
Proof.
  unfold alphabet.
  destruct (N.ltb_spec v 26);
    [left; split; [assumption |]; unfold url_safe_char; bool_cases; reflexivity |].
  destruct (N.ltb_spec v 52);
    [right; left; split; [lia |]; unfold url_safe_char; bool_cases; lia |].
  destruct (N.ltb_spec v 62);
    [right; right; left; split; [lia |]; unfold url_safe_char; bool_cases; lia |].
  destruct (N.eqb_spec v 62);
    [right; right; right; left; split; [assumption | reflexivity] |].
  right; right; right; right. split; [lia | reflexivity].
Qed.

Ltac by_alphabet_range v :=
  destruct (alphabet_spec v) as [[? ->] | [[? ->] | [[? ->] | [[? ->] | [? ->]]]]].


Lemma alphabet_not_pad v : negb (url_safe_char (alphabet v) =? pad) = true.
Proof. by_alphabet_range v; unfold pad; bool_cases; reflexivity. Qed.




(** The encoder handles three bytes at a time. *)
Lemma encodeBase64URL_three a b c rest :
  encodeBase64URL (a :: b :: c :: rest)
  = url_safe_char (alphabet (a / 4))
    :: url_safe_char (alphabet ((a mod 4) * 16 + b / 16))
    :: url_safe_char (alphabet ((b mod 16) * 4 + c / 64))
    :: url_safe_char (alphabet (c mod 64))
    :: encodeBase64URL rest.
Proof.
  unfold encodeBase64URL. cbn [encodeBase64 map filter].
  rewrite !alphabet_not_pad. reflexivity.
Qed.

Lemma encodeBase64URL_two a b :
  encodeBase64URL [a; b]
  = [url_safe_char (alphabet (a / 4));
     url_safe_char (alphabet ((a mod 4) * 16 + b / 16));
     url_safe_char (alphabet ((b mod 16) * 4))].
Proof.
  unfold encodeBase64URL. cbn [encodeBase64 map filter].
  rewrite !alphabet_not_pad. reflexivity.
Qed.






Lemma encodeBase64URL_length_32 (bytes : Uint8Array) :
  List.length bytes = 32%nat ->
  List.length (encodeBase64URL (uint8ArrayToString bytes)) = 43%nat.
Proof.
  intros H.
  do 32 (destruct bytes as [| ?b bytes]; [discriminate H |]).
  destruct bytes; [| discriminate H].
  cbn [uint8ArrayToString map].
  rewrite !encodeBase64URL_three, encodeBase64URL_two. reflexivity.
Qed.

End Base64Proofs.

Module URLSearchParamsProofs.
Import Str URLSearchParams.
#[local] Open Scope N_scope.

Lemma is_ascii_cons c s : is_ascii (c :: s) = true <-> c < 128 /\ is_ascii s = true.
Proof. unfold is_ascii. simpl. rewrite andb_true_iff, N.ltb_lt. reflexivity. Qed.

Lemma is_ascii_app s1 s2 :
  is_ascii (s1 ++ s2) = true <-> is_ascii s1 = true /\ is_ascii s2 = true.
Proof. unfold is_ascii. rewrite forallb_app, andb_true_iff. reflexivity. Qed.

Lemma includes_app s1 s2 c :
  includes (s1 ++ s2) c = false <-> includes s1 c = false /\ includes s2 c = false.
Proof. unfold includes. rewrite existsb_app, orb_false_iff. reflexivity. Qed.

(** *** UTF-8 on ASCII *)

Lemma encode_code_point_ascii c : c < 128 -> UTF8.encode_code_point c = [c].
Proof. intros H. unfold UTF8.encode_code_point. bool_cases. reflexivity. Qed.

Lemma utf8_encode_ascii s : is_ascii s = true -> UTF8.encode s = s.
Proof.
  induction s as [| c s IH]; intros H; [reflexivity |].
  apply is_ascii_cons in H. destruct H as [Hc Hs].
  cbn [UTF8.encode].
  replace (UTF8.is_high_surrogate c) with false
    by (unfold UTF8.is_high_surrogate; bool_cases; reflexivity).
  replace (UTF8.is_low_surrogate c) with false
    by (unfold UTF8.is_low_surrogate; bool_cases; reflexivity).
  rewrite encode_code_point_ascii, IH by assumption. reflexivity.
Qed.

Lemma decode_from_ascii s :
  is_ascii s = true -> UTF8.decode_from UTF8.initial s = s.
Proof.
  induction s as [| c s IH]; intros H; [reflexivity |].
  apply is_ascii_cons in H. destruct H as [Hc Hs].
  cbn [UTF8.decode_from UTF8.initial UTF8.bytes_needed N.eqb].
  unfold UTF8.first_byte.
  destruct (N.leb_spec c 127); [| lia].
  cbn [app]. fold UTF8.initial. rewrite IH by assumption. reflexivity.
Qed.

Lemma utf8_decode_ascii s : is_ascii s = true -> UTF8.decode s = s.
Proof.
  intros H. unfold UTF8.decode. rewrite decode_from_ascii by assumption.
  induction s as [| c s IH]; [reflexivity |].
  apply is_ascii_cons in H. destruct H as [Hc Hs].
  cbn [flat_map]. rewrite IH by assumption.
  unfold UTF8.utf16_of_code_point. bool_cases. reflexivity.
Qed.

(** *** One byte, serialised and read back *)

Lemma hex_value_digit n : n < 16 -> hex_value (hex_digit n) = Some n.
Proof.
  intros H. unfold hex_digit. destruct (N.ltb_spec n 10); unfold hex_value;
    bool_cases; cbn [andb]; f_equal; lia.
Qed.

Lemma hex_digit_range n :
  n < 16 -> (48 <= hex_digit n <= 57) \/ (65 <= hex_digit n <= 70).
Proof. intros H. unfold hex_digit. destruct (N.ltb_spec n 10); lia. Qed.

(** What [encode_byte] writes, by case. *)
Lemma encode_byte_spec b :
  b < 256 ->
  (b = space /\ encode_byte b = [plus_sign])
  \/ (unreserved b = true /\ b <> space /\ encode_byte b = [b])
  \/ (b <> space /\
      encode_byte b = [percent_sign; hex_digit (b / 16); hex_digit (b mod 16)]).
Proof.
  intros H. unfold encode_byte.
  destruct (N.eqb_spec b space); [left; auto |].
  destruct (unreserved b) eqn:Hu; [right; left; auto | right; right; auto].
Qed.

Lemma unreserved_range b :
  unreserved b = true ->
  (48 <= b <= 57) \/ (65 <= b <= 90) \/ (97 <= b <= 122)
  \/ b = 42 \/ b = 45 \/ b = 46 \/ b = 95.
Proof. unfold unreserved. bool_cases; cbn [andb orb]; try discriminate; lia. Qed.

Lemma encode_byte_ascii b : b < 256 -> is_ascii (encode_byte b) = true.
Proof.
  intros H.
  assert (H1 : b / 16 < 16) by lia. assert (H2 : b mod 16 < 16) by lia.
  pose proof (hex_digit_range _ H1). pose proof (hex_digit_range _ H2).
  destruct (encode_byte_spec b H) as [[_ ->] | [(Hu & _ & ->) | [_ ->]]].
  - reflexivity.
  - apply unreserved_range in Hu. unfold is_ascii. cbn [forallb].
    bool_cases; reflexivity.
  - unfold is_ascii, percent_sign. cbn [forallb]. bool_cases; reflexivity.
Qed.

Lemma encode_byte_free b c :
  b < 256 -> separator c -> includes (encode_byte b) c = false.
Proof.
  intros H Hc.
  assert (H1 : b / 16 < 16) by lia. assert (H2 : b mod 16 < 16) by lia.
  pose proof (hex_digit_range _ H1). pose proof (hex_digit_range _ H2).
  unfold separator, ampersand, equals_sign, hash_sign in Hc.
  destruct (encode_byte_spec b H) as [[_ ->] | [(Hu & _ & ->) | [_ ->]]];
    unfold includes, plus_sign, percent_sign; cbn [existsb].
  - bool_cases; reflexivity.
  - apply unreserved_range in Hu. bool_cases; reflexivity.
  - bool_cases; reflexivity.
Qed.

Lemma plus_to_space_other b : b <> 43 -> plus_to_space b = b.
Proof. intros H. unfold plus_to_space, plus_sign. bool_cases; reflexivity. Qed.

Lemma percent_decode_other b rest :
  b <> 37 -> percent_decode (b :: rest) = b :: percent_decode rest.
Proof. intros H. cbn [percent_decode]. unfold percent_sign. bool_cases; reflexivity. Qed.

Lemma percent_decode_encode_byte b rest :
  b < 256 ->
  percent_decode (map plus_to_space (encode_byte b ++ rest))
  = b :: percent_decode (map plus_to_space rest).
Proof.
  intros H.
  assert (H1 : b / 16 < 16) by lia. assert (H2 : b mod 16 < 16) by lia.
  pose proof (hex_digit_range _ H1) as R1. pose proof (hex_digit_range _ H2) as R2.
  destruct (encode_byte_spec b H) as [[-> ->] | [(Hu & Hs & ->) | [Hs ->]]].
  - reflexivity.
  - apply unreserved_range in Hu. unfold space in Hs.
    cbn [app map]. rewrite plus_to_space_other by lia.
    apply percent_decode_other. lia.
  - cbn [app map]. unfold percent_sign.
    rewrite !plus_to_space_other by lia.
    cbn [percent_decode]. unfold percent_sign. rewrite N.eqb_refl.
    rewrite !hex_value_digit by assumption.
    f_equal. lia.
Qed.

(** *** A component, serialised and read back *)

Lemma ascii_bytes s : is_ascii s = true -> Forall (fun b => b < 256) s.
Proof.
  induction s as [| c s IH]; intros H; constructor;
    apply is_ascii_cons in H; destruct H; [lia | auto].
Qed.

Lemma urlencode_ascii s : is_ascii s = true -> urlencode s = flat_map encode_byte s.
Proof. intros H. unfold urlencode. rewrite utf8_encode_ascii by assumption. reflexivity. Qed.

Lemma flat_encode_is_ascii s :
  Forall (fun b => b < 256) s -> is_ascii (flat_map encode_byte s) = true.
Proof.
  induction 1 as [| b s Hb Hs IH]; [reflexivity |].
  cbn [flat_map]. apply is_ascii_app. split; [apply encode_byte_ascii; assumption | exact IH].
Qed.

Lemma flat_encode_free s c :
  Forall (fun b => b < 256) s -> separator c ->
  includes (flat_map encode_byte s) c = false.
Proof.
  intros H Hc. induction H as [| b s Hb Hs IH]; [reflexivity |].
  cbn [flat_map]. apply includes_app. split; [apply encode_byte_free; assumption | exact IH].
Qed.

Lemma percent_decode_flat_encode s :
  Forall (fun b => b < 256) s ->
  percent_decode (map plus_to_space (flat_map encode_byte s)) = s.
Proof.
  induction 1 as [| b s Hb Hs IH]; [reflexivity |].
  cbn [flat_map]. rewrite percent_decode_encode_byte, IH by assumption. reflexivity.
Qed.

Lemma decode_component_urlencode s :
  is_ascii s = true -> decode_component (urlencode s) = s.
Proof.
  intros H. unfold decode_component.
  rewrite urlencode_ascii, percent_decode_flat_encode by auto using ascii_bytes.
  apply utf8_decode_ascii. exact H.
Qed.

(** *** A list of pairs, serialised and read back *)

Lemma split_first_at sep name rest :
  includes name sep = false ->
  split_first sep (name ++ sep :: rest) = (name, Some rest).
Proof.
  induction name as [| c name IH]; intros H.
  - cbn [app split_first]. rewrite N.eqb_refl. reflexivity.
  - unfold includes in H. cbn [existsb] in H. apply orb_false_iff in H.
    destruct H as [Hc Hn]. cbn [app split_first]. rewrite Hc, IH by exact Hn.
    reflexivity.
Qed.

Lemma split_on_free sep part :
  includes part sep = false -> split_on sep part = [part].
Proof.
  induction part as [| c part IH]; intros H; [reflexivity |].
  unfold includes in H. cbn [existsb] in H. apply orb_false_iff in H.
  destruct H as [Hc Hn]. cbn [split_on]. rewrite Hc, IH by exact Hn. reflexivity.
Qed.

Lemma split_on_app sep part rest :
  includes part sep = false ->
  split_on sep (part ++ sep :: rest) = part :: split_on sep rest.
Proof.
  induction part as [| c part IH]; intros H.
  - cbn [app split_on]. rewrite N.eqb_refl. reflexivity.
  - unfold includes in H. cbn [existsb] in H. apply orb_false_iff in H.
    destruct H as [Hc Hn]. cbn [app split_on]. rewrite Hc, IH by exact Hn.
    reflexivity.
Qed.

Lemma split_on_join sep part parts :
  Forall (fun p => includes p sep = false) (part :: parts) ->
  split_on sep (join sep (part :: parts)) = part :: parts.
Proof.
  revert part. induction parts as [| q parts IH]; intros part H.
  - apply split_on_free. inversion H; assumption.
  - inversion H as [| ? ? Hp Hrest]; subst.
    change (join sep (part :: q :: parts)) with (part ++ sep :: join sep (q :: parts)).
    rewrite split_on_app by exact Hp. rewrite IH by exact Hrest. reflexivity.
Qed.

Lemma separator_ampersand : separator ampersand.
Proof. unfold separator. auto. Qed.

Lemma separator_equals : separator equals_sign.
Proof. unfold separator. auto. Qed.

Lemma separator_hash : separator hash_sign.
Proof. unfold separator. auto. Qed.

Lemma serialized_pair_facts nv :
  ascii_pair nv = true ->
  is_ascii (serialized_pair nv) = true
  /\ includes (serialized_pair nv) ampersand = false
  /\ includes (serialized_pair nv) hash_sign = false
  /\ parse_sequence (serialized_pair nv) = [nv].
Proof.
  destruct nv as [n v]. unfold ascii_pair, serialized_pair. cbn [fst snd].
  rewrite andb_true_iff. intros [Hn Hv].
  pose proof (ascii_bytes _ Hn) as Bn. pose proof (ascii_bytes _ Hv) as Bv.
  assert (Hfree : forall c, separator c -> c <> equals_sign ->
                    includes (flat_map encode_byte n
                              ++ equals_sign :: flat_map encode_byte v) c = false).
  { intros c Hc Hne. apply includes_app. split; [apply flat_encode_free; assumption |].
    unfold includes. cbn [existsb]. apply orb_false_iff.
    split; [apply N.eqb_neq; congruence | apply flat_encode_free; assumption]. }
  split; [| split; [| split]].
  - rewrite !urlencode_ascii by assumption.
    apply is_ascii_app. split; [apply flat_encode_is_ascii; assumption |].
    apply is_ascii_cons. split; [unfold equals_sign; lia |].
    apply flat_encode_is_ascii; assumption.
  - rewrite !urlencode_ascii by assumption.
    apply Hfree; [apply separator_ampersand | discriminate].
  - rewrite !urlencode_ascii by assumption.
    apply Hfree; [apply separator_hash | discriminate].
  - unfold parse_sequence.
    destruct (urlencode n ++ equals_sign :: urlencode v) as [| c l] eqn:E;
      [destruct (urlencode n); discriminate E |].
    rewrite <- E.
    rewrite split_first_at
      by (rewrite urlencode_ascii by assumption; apply flat_encode_free;
          [assumption | apply separator_equals]).
    rewrite !decode_component_urlencode by assumption. reflexivity.
Qed.

Lemma includes_join parts c :
  c <> ampersand ->
  Forall (fun p => includes p c = false) parts ->
  includes (join ampersand parts) c = false.
Proof.
  intros Hc. induction 1 as [| p parts Hp Hrest IH]; [reflexivity |].
  destruct parts as [| q parts]; [exact Hp |].
  change (join ampersand (p :: q :: parts))
    with (p ++ ampersand :: join ampersand (q :: parts)).
  apply includes_app. split; [exact Hp |].
  unfold includes. cbn [existsb]. apply orb_false_iff.
  split; [apply N.eqb_neq; congruence | exact IH].
Qed.

(** No [#] is left in what [toString] writes. *)
Lemma toString_no_hash (params : URLSearchParams.t) :
  forallb ascii_pair params = true -> includes (toString params) hash_sign = false.
Proof.
  intros H. unfold toString. apply includes_join; [discriminate |].
  apply Forall_map. apply Forall_forall. intros nv Hin.
  apply serialized_pair_facts. apply (proj1 (forallb_forall _ _) H nv Hin).
Qed.

Lemma split_first_absent sep s :
  includes s sep = false -> split_first sep s = (s, None).
Proof.
  induction s as [| c s IH]; intros H; [reflexivity |].
  unfold includes in H. cbn [existsb] in H. apply orb_false_iff in H.
  destruct H as [Hc Hs]. cbn [split_first]. rewrite Hc, IH by exact Hs. reflexivity.
Qed.

Lemma is_ascii_join parts :
  Forall (fun p => is_ascii p = true) parts -> is_ascii (join ampersand parts) = true.
Proof.
  induction 1 as [| p parts Hp Hrest IH]; [reflexivity |].
  destruct parts as [| q parts]; [exact Hp |].
  change (join ampersand (p :: q :: parts))
    with (p ++ ampersand :: join ampersand (q :: parts)).
  apply is_ascii_app. split; [exact Hp |].
  apply is_ascii_cons. split; [unfold ampersand; lia | exact IH].
Qed.

(** Parsing what [toString] wrote gives the pairs back, in order. *)
Lemma parse_toString (params : URLSearchParams.t) :
  forallb ascii_pair params = true -> parse (toString params) = params.
Proof.
  intros H. unfold parse, toString.
  assert (F : Forall (fun nv => ascii_pair nv = true) params)
    by (apply Forall_forall; apply forallb_forall; exact H).
  rewrite utf8_encode_ascii.
  2:{ apply is_ascii_join. apply Forall_map.
      eapply Forall_impl; [| exact F]. intros nv Hnv.
      apply (serialized_pair_facts nv Hnv). }
  destruct params as [| nv params]; [reflexivity |].
  cbn [map]. rewrite split_on_join.
  2:{ change (serialized_pair nv :: map serialized_pair params)
        with (map serialized_pair (nv :: params)).
      apply Forall_map. eapply Forall_impl; [| exact F]. intros p Hp.
      apply (serialized_pair_facts p Hp). }
  change (serialized_pair nv :: map serialized_pair params)
    with (map serialized_pair (nv :: params)).
  clear H. induction F as [| p ps Hp Hps IH]; [reflexivity |].
  cbn [map flat_map].
  destruct (serialized_pair_facts p Hp) as (_ & _ & _ & ->). rewrite IH. reflexivity.
Qed.

Lemma serialized_pair_head nv :
  ascii_pair nv = true ->
  exists c rest, serialized_pair nv = c :: rest /\ c <> question_mark.
Proof.
  destruct nv as [n v]. unfold ascii_pair, serialized_pair. cbn [fst snd].
  rewrite andb_true_iff. intros [Hn _].
  rewrite (urlencode_ascii n) by exact Hn.
  destruct n as [| b n]; [cbn [flat_map app]; eexists _, _; split;
                          [reflexivity | discriminate] |].
  apply is_ascii_cons in Hn. destruct Hn as [Hb _].
  assert (Hb' : b < 256) by lia.
  assert (H1 : b / 16 < 16) by lia.
  cbn [flat_map].
  destruct (encode_byte_spec b Hb') as [[_ ->] | [(Hu & _ & ->) | [_ ->]]];
    cbn [app]; eexists _, _; (split; [reflexivity |]); try discriminate.
  apply unreserved_range in Hu. unfold question_mark. lia.
Qed.

(** A string that does not start with [?] is parsed as it is. *)
Lemma of_string_toString (params : URLSearchParams.t) :
  forallb ascii_pair params = true -> of_string (toString params) = params.
Proof.
  intros H. unfold of_string.
  destruct (toString params) as [| c rest] eqn:E;
    [rewrite <- E; apply parse_toString; exact H |].
  destruct (N.eqb_spec c question_mark) as [-> | _];
    [| rewrite <- E; apply parse_toString; exact H].
  exfalso. unfold toString in E.
  destruct params as [| p ps]; [discriminate E |].
  cbn [forallb] in H. apply andb_true_iff in H. destruct H as [Hp _].
  destruct (serialized_pair_head p Hp) as (c & l & Ec & Hc).
  destruct ps as [| q qs]; cbn [map join] in E; rewrite Ec in E; cbn [app] in E;
    injection E as -> _; apply Hc; reflexivity.
Qed.

End URLSearchParamsProofs.

Module RequestForkProofs.
Import Str URLSearchParams URLSearchParamsProofs Base64 Base64Proofs RequestFork.







Import ForkUrlScenario.

Example requestFork_example :
  requestFork account_href authorize random_byte options
  = {| state := js "pTylPKU8pTylPKU8pTylPKU8pTylPKU8pTylPKU8pTw";
       url := js "https://account.proton.me/authorize?app=proton-pass&state=pTylPKU8pTylPKU8pTylPKU8pTylPKU8pTylPKU8pTw&independent=0&u=3&t=1" |}.
Proof. vm_compute. reflexivity. Qed.

Example requestFork_example_bare :
  url (requestFork account_href authorize random_byte bare_options)
  = js "https://account.example/authorize?app=proton-pass&state=pTylPKU8pTylPKU8pTylPKU8pTylPKU8pTylPKU8pTw&independent=0".
Proof. vm_compute. reflexivity. Qed.


End RequestForkProofs.

(** * Further properties of the fork consumption protocol *)

Module ForkMoreProofs.
Import Fork ForkSpec ForkCalls JSFacts ForkProofs.

(** X1: [consumeFork] makes each of its calls at most once and in a fixed
    order: pull-fork, refresh, get-user, then key derivation and
    decryption.  Nothing is retried and nothing else is called, whatever
    the collaborators answer. *)
Theorem consumeFork_calls_once_in_order imports options :
  exists n,
    map call_kind (snd (run (consumeFork imports options))) = firstn n call_order.
Proof.
  run_cases options;
    first [ exists 0%nat; reflexivity | exists 1%nat; reflexivity
          | exists 2%nat; reflexivity | exists 3%nat; reflexivity
          | exists 4%nat; reflexivity | exists 5%nat; reflexivity ].
Qed.

(** X2: the failures of [consumeFork] are of three kinds and no other:
    the gate's error, with nothing called; the error of the decryption
    step, after a key derivation or decryption call that threw and was the
    last call; or the very error thrown by the network call that was the
    last call. *)
Theorem consumeFork_failure_kinds imports options e :
  fst (run (consumeFork imports options)) = inl e ->
  (e = invalid_fork_state /\ snd (run (consumeFork imports options)) = [])
  \/ (e = failed_to_decrypt
      /\ exists before ev e',
           snd (run (consumeFork imports options)) = before ++ [ev]
           /\ is_decryption ev = true /\ failure ev = Some e')
  \/ (exists before k config,
        snd (run (consumeFork imports options))
        = before ++ [EvApi k config (inl e)]).
Proof.
  run_cases options; intros [= <-].
  all: try solve [left; split; reflexivity].
  all: try solve [right; right; exists (@nil Event), PullFork; eexists; reflexivity].
  all: try solve [right; right; eexists [_]; exists RefreshSession; eexists; reflexivity].
  all: try solve [right; right; eexists [_; _]; exists GetUser; eexists; reflexivity].
  all: right; left; split; [reflexivity |].
  all: first [ eexists [_; _; _], _, _; split; [reflexivity | split; reflexivity]
             | eexists [_; _; _; _], _, _; split; [reflexivity | split; reflexivity] ].
Qed.

(** X3: [state] and [localState] only pass the gate: they are never
    compared with each other, nor sent to a collaborator.  Two payloads
    that differ only in them, [state] not empty and [localState] not null
    in both, give the same calls and the same outcome. *)
Theorem consumeFork_state_only_gates imports api apiUrl
    localState1 localState2 state1 state2 sel key version keyPassword :
  state1 <> [] -> state2 <> [] ->
  run (consumeFork imports
         {| api := api; apiUrl := apiUrl;
            payload := Sso (Some localState1) state1 sel key version |})
  = run (consumeFork imports
           {| api := api; apiUrl := apiUrl;
              payload := Sso (Some localState2) state2 sel key version |})
  /\ run (consumeFork imports
            {| api := api; apiUrl := apiUrl;
               payload := Secure state1 sel keyPassword |})
     = run (consumeFork imports
              {| api := api; apiUrl := apiUrl;
                 payload := Secure state2 sel keyPassword |}).
Proof.
  intros H1 H2.
  destruct state1 as [| c1 s1]; [congruence |].
  destruct state2 as [| c2 s2]; [congruence |].
  split; reflexivity.
Qed.

(** X4: key derivation and decryption come last.  When one of them was
    called, the three network calls had succeeded before it, the payload is
    an sso payload with its key, [getKey] received that key, and
    [getForkDecryptedBlob], when reached, received the key [getKey]
    returned, the [Payload] of the pull-fork answer and the payload's
    version. *)
Theorem consumeFork_decrypts_last imports options ev :
  In ev (snd (run (consumeFork imports options))) ->
  is_decryption ev = true ->
  exists pull refresh user localState st sel key version rest,
    payload options = Sso (Some localState) st sel (Some key) version
    /\ snd (run (consumeFork imports options))
       = EvApi PullFork (pullForkRequest imports options) (inr pull)
         :: EvApi RefreshSession (refreshRequest imports pull) (inr refresh)
         :: EvApi GetUser (userRequest imports pull refresh) (inr user)
         :: rest
    /\ ((exists e, rest = [EvGetKey (Some key) (inl e)])
        \/ (exists k result,
              rest = [EvGetKey (Some key) (inr k);
                      EvGetForkDecryptedBlob k (PullForkResponse.Payload pull)
                        version result])).
Proof.
  intros Hin Hdec.
  destruct (validFork (payload options)) eqn:Hv.
  2:{ exfalso. revert Hin. destruct options as [api apiUrl p]. simpl in Hv.
      exec. rewrite Hv. simpl. auto. }
  pose proof (consumeFork_chain imports options Hv) as Hc.
  revert Hin Hc. destruct options as [api apiUrl p]. cbn [payload] in *.
  pose proof (pullForkRequest_eq imports api apiUrl p) as Hreq. simpl in Hreq.
  exec. rewrite Hv. simpl. rewrite Hreq. clear Hreq.
  set (options := {| api := api; apiUrl := apiUrl; payload := p |}).
  destruct p as [localState st sel key version | st sel keyPassword];
    simpl; repeat split_call; intros Hin _; simpl in Hin; in_cases;
    try discriminate Hdec.
  all: unfold validFork in Hv; simpl in Hv;
    destruct localState as [localState |], key as [key |]; try discriminate Hv.
  all: do 9 eexists; split; [reflexivity |]; split; [reflexivity |].
  all: first [ left; eexists; reflexivity | right; do 2 eexists; reflexivity ].
Qed.

(** X5: once [getForkDecryptedBlob] has returned, [consumeFork] returns a
    session: a blob that is undefined, or that has no [keyPassword], is not
    an error, the session then has the empty string as [keyPassword]. *)
Theorem consumeFork_returns_after_decryption imports options k data version blob :
  In (EvGetForkDecryptedBlob k data version (inr blob))
    (snd (run (consumeFork imports options))) ->
  exists session,
    fst (run (consumeFork imports options)) = inr session
    /\ AuthSession.keyPassword session = keyPassword_of blob
    /\ (blob = None -> AuthSession.keyPassword session = [])
    /\ (forall b, blob = Some b -> ForkBlob.keyPassword b = None ->
        AuthSession.keyPassword session = []).
Proof.
  run_cases options; intros Hin; simpl in Hin; in_cases; try discriminate.
  match goal with
  | H : EvGetForkDecryptedBlob _ _ _ _ = EvGetForkDecryptedBlob _ _ _ _ |- _ =>
      injection H as _ _ _ ->
  end.
  eexists. split; [reflexivity |]. cbn [AuthSession.keyPassword].
  split; [reflexivity |]. split.
  - intros ->. reflexivity.
  - intros b -> Hb. unfold keyPassword_of. rewrite Hb. reflexivity.
Qed.

Import ForkScenario MoreScenarios.

Lemma consumeFork_failure_kinds_witness :
  fst (run (consumeFork decrypts_to_pw rejected_options))
  = inl (Thrown (js "StatusCodeError: 401"))
  /\ exists before k config,
       snd (run (consumeFork decrypts_to_pw rejected_options))
       = before ++ [EvApi k config (inl (Thrown (js "StatusCodeError: 401")))].
Proof.
  split; [reflexivity |].
  destruct (consumeFork_failure_kinds decrypts_to_pw rejected_options
              (Thrown (js "StatusCodeError: 401")) eq_refl)
    as [[H _] | [[H _] | H]]; [discriminate H | discriminate H | exact H].
Defined.

Lemma consumeFork_state_only_gates_witness :
  js "state-1" <> [] /\ js "another state" <> []
  /\ run (consumeFork decrypts_to_pw
            {| api := scenario_api; apiUrl := None;
               payload := Sso (Some (js "state-1")) (js "state-1")
                            (js "selector-1") (Some raw_key) V2 |})
     = run (consumeFork decrypts_to_pw
              {| api := scenario_api; apiUrl := None;
                 payload := Sso (Some (js "unrelated")) (js "another state")
                              (js "selector-1") (Some raw_key) V2 |}).
Proof.
  assert (H1 : js "state-1" <> []) by discriminate.
  assert (H2 : js "another state" <> []) by discriminate.
  split; [exact H1 |]. split; [exact H2 |].
  exact (proj1 (consumeFork_state_only_gates decrypts_to_pw scenario_api None
                  (js "state-1") (js "unrelated") (js "state-1")
                  (js "another state") (js "selector-1") (Some raw_key) V2 []
                  H1 H2)).
Defined.

Lemma consumeFork_decrypts_last_witness :
  In (EvGetKey (Some raw_key) (inr (CryptoKeyHandle 1)))
    (snd (run (consumeFork decryption_throws sso_options)))
  /\ exists pull refresh user localState st sel key version rest,
       payload sso_options = Sso (Some localState) st sel (Some key) version
       /\ snd (run (consumeFork decryption_throws sso_options))
          = EvApi PullFork (pullForkRequest decryption_throws sso_options) (inr pull)
            :: EvApi RefreshSession (refreshRequest decryption_throws pull)
                 (inr refresh)
            :: EvApi GetUser (userRequest decryption_throws pull refresh) (inr user)
            :: rest
       /\ ((exists e, rest = [EvGetKey (Some key) (inl e)])
           \/ (exists k result,
                 rest = [EvGetKey (Some key) (inr k);
                         EvGetForkDecryptedBlob k (PullForkResponse.Payload pull)
                           version result])).
Proof.
  assert (Hin : In (EvGetKey (Some raw_key) (inr (CryptoKeyHandle 1)))
                  (snd (run (consumeFork decryption_throws sso_options))))
    by (vm_compute; do 3 right; left; reflexivity).
  split; [exact Hin |].
  exact (consumeFork_decrypts_last decryption_throws sso_options
           (EvGetKey (Some raw_key) (inr (CryptoKeyHandle 1))) Hin eq_refl).
Defined.

Lemma consumeFork_returns_after_decryption_witness :
  In (EvGetForkDecryptedBlob (CryptoKeyHandle 1) (js "enc...") V2 (inr None))
    (snd (run (consumeFork decrypts_to_nothing sso_options)))
  /\ exists session,
       fst (run (consumeFork decrypts_to_nothing sso_options)) = inr session
       /\ AuthSession.keyPassword session = [].
Proof.
  assert (Hin : In (EvGetForkDecryptedBlob (CryptoKeyHandle 1) (js "enc...") V2
                      (inr None))
                  (snd (run (consumeFork decrypts_to_nothing sso_options))))
    by (vm_compute; do 4 right; left; reflexivity).
  split; [exact Hin |].
  destruct (consumeFork_returns_after_decryption decrypts_to_nothing sso_options
              (CryptoKeyHandle 1) (js "enc...") V2 None Hin)
    as (session & Hs & Hk & _).
  exists session. split; [exact Hs | exact Hk].
Defined.

End ForkMoreProofs.

(** * Further properties of the cache saga *)

Module CacheMoreProofs.
Import Cache CacheSpec CacheProofs.

Section Saga.
Variables State Snapshot : Type.
Variable imports : Imports State Snapshot.

Lemma all_succeeded_removelast (tr : list (Event State Snapshot)) :
  all_succeeded tr = true -> all_succeeded (removelast tr) = true.
Proof.
  unfold all_succeeded. induction tr as [| ev tr IH]; [reflexivity |].
  cbn [forallb]. rewrite andb_true_iff. intros [H1 H2].
  destruct tr as [| ev' tr]; [reflexivity |].
  cbn [removelast forallb]. rewrite H1. exact (IH H2).
Qed.

Lemma all_succeeded_snoc (tr : list (Event State Snapshot)) (ev : Event State Snapshot) :
  all_succeeded (tr ++ [ev]) = all_succeeded tr && negb (failed ev).
Proof.
  unfold all_succeeded. rewrite forallb_app. cbn [forallb].
  rewrite andb_true_r. reflexivity.
Qed.

Lemma perform_stops {R} (f : list (Event State Snapshot) -> Exn + R) (log : Exn + R -> Event State Snapshot) :
  (forall x, failed (log (inr x)) = false) -> stops_at_failure (perform f log).
Proof.
  intros H tr Htr. unfold perform. cbn [fst snd]. split.
  - rewrite removelast_last. exact Htr.
  - intros a ->. rewrite all_succeeded_snoc, Htr, H. reflexivity.
Qed.

Lemma pure_stops {A} (r : Exn + A) : stops_at_failure (@pure State Snapshot A r).
Proof.
  intros tr Htr. unfold pure. cbn [fst snd].
  split; [apply all_succeeded_removelast; exact Htr | intros; exact Htr].
Qed.

Lemma ret_stops {A} (a : A) : stops_at_failure (ret (Ev := Event State Snapshot) a).
Proof.
  intros tr Htr. unfold ret. cbn [fst snd].
  split; [apply all_succeeded_removelast; exact Htr | intros; exact Htr].
Qed.

Lemma bind_stops {A B} (m : M A) (k : A -> M (Ev := Event State Snapshot) B) :
  stops_at_failure m -> (forall a, stops_at_failure (k a)) ->
  stops_at_failure (bind m k).
Proof.
  intros Hm Hk tr Htr. unfold bind.
  destruct (Hm tr Htr) as [H1 H2]. destruct (m tr) as [[e | a] tr'];
    cbn [fst snd] in *.
  - split; [exact H1 | intros b [=]].
  - apply Hk. exact (H2 a eq_refl).
Qed.

Lemma hasSession_stops : stops_at_failure (hasSession imports).
Proof.
  unfold hasSession. destruct (authentication_hasSession imports) as [f |].
  - apply perform_stops. intros x. reflexivity.
  - apply ret_stops.
Qed.

Lemma cacheWorker_body_stops action :
  forall tr : list (Event State Snapshot), all_succeeded tr = true ->
    all_succeeded (removelast (snd (cacheWorker imports action tr))) = true.
Proof.
  intros tr Htr. unfold cacheWorker, wait. rewrite bind_perform_eq.
  destruct (promise_wait imports tr 500) as [e | []]; cbn [snd];
    [rewrite removelast_last; exact Htr |].
  assert (Hw : all_succeeded (tr ++ [EvWait 500 (inr tt)]) = true)
    by (rewrite all_succeeded_snoc, Htr; reflexivity).
  revert Hw. generalize (tr ++ [EvWait 500 (inr tt)]). intros tr1 Hw.
  unfold bind at 1.
  destruct (hasSession_stops tr1 Hw) as [H1 H2].
  destruct (hasSession imports tr1) as [[e | [|]] tr2]; cbn [fst snd] in *;
    [exact H1 | | unfold ret; cbn [snd]; apply all_succeeded_removelast;
                  exact (H2 false eq_refl)].
  rewrite try_catch_swallows. cbn [snd].
  pose proof (H2 true eq_refl) as Hw2.
  match goal with
  | |- all_succeeded (removelast (snd (?m tr2))) = true =>
      assert (Hs : stops_at_failure m); [| exact (proj1 (Hs tr2 Hw2))]
  end.
  unfold setItem.
  repeat (apply bind_stops;
          [first [ apply pure_stops
                 | apply perform_stops; intros x; reflexivity ] |];
          intros ?).
  apply ret_stops.
Qed.

End Saga.

(** X6: [cacheWorker] stops at the first call that throws: in the log of a
    run every call but the last one returned.  So nothing is encrypted
    after a key derivation that failed, and no entry is written after a
    write that failed. *)
Theorem cacheWorker_stops_at_first_failure State Snapshot
    (imports : Imports State Snapshot) (action : AnyAction) :
  all_succeeded (removelast (snd (run (cacheWorker imports action)))) = true.
Proof. apply cacheWorker_body_stops. reflexivity. Qed.

(** One step of the saga: the call throws, or returns and the saga goes
    on. *)
Ltac saga_call :=
  lazymatch goal with
  | |- context [bind (perform ?f ?log) ?k ?tr] =>
      rewrite (bind_perform_eq f log k tr); cbv beta;
      let x := eval cbv beta in (f tr) in
      let E := fresh "E" in
      destruct x eqn:E; cbn [app fst snd]
  | |- context [bind (pure ?r) ?k ?tr] =>
      rewrite (bind_pure_eq r k tr);
      let E := fresh "E" in destruct r eqn:E; cbn [app fst snd]
  end.

(** The saga wrote nothing, or there was a session and it wrote what it
    prepared. *)
Lemma cacheWorker_unwritten_or_prepared State Snapshot
    (imports : Imports State Snapshot) (action : AnyAction) :
  writes (snd (run (cacheWorker imports action))) = []
  \/ ((exists hasSession,
         authentication_hasSession imports = Some hasSession
         /\ hasSession [EvWait 500 (inr tt)] = inr true)
      /\ written_as_prepared imports action (snd (run (cacheWorker imports action)))).
Proof.
  pattern (snd (run (cacheWorker imports action))).
  match goal with |- ?Q _ => set (P := Q) end.
  unfold run, cacheWorker, wait.
  saga_call; [left; reflexivity |].
  match goal with u : unit |- _ => destruct u end.
  unfold hasSession.
  destruct (authentication_hasSession imports) as [hasSession |] eqn:Hauth;
    [| rewrite bind_ret_eq; left; reflexivity].
  saga_call; [left; reflexivity |].
  match goal with b : bool |- _ => destruct b end; [| left; reflexivity].
  rewrite try_catch_swallows. cbn [app fst snd]. unfold setItem.
  do 12 (saga_call; [left; reflexivity |]).
  assert (Hp : forall r1 r2 r3 n, (1 <= n)%nat ->
            P (preparation imports action o u c s j u0 s2 j0 u1
               ++ firstn n (storage_writes imports u u0 u1 r1 r2 r3))).
  { intros r1 r2 r3 n Hn. right.
    split; [exists hasSession; split; [reflexivity | assumption] |].
    do 11 eexists. exists r1, r2, r3, n.
    repeat (split; [first [eassumption | exact Hn] |]). reflexivity. }
  destruct u2.
  saga_call; [apply (Hp (inl e) (inr tt) (inr tt) 1%nat); lia |].
  saga_call; [destruct u2; apply (Hp (inr tt) (inl e) (inr tt) 2%nat); lia |].
  saga_call; destruct u2, u3;
    [apply (Hp (inr tt) (inr tt) (inl e) 3%nat); lia |].
  destruct u4. apply (Hp (inr tt) (inr tt) (inr tt) 3%nat). lia.
Qed.

(** X7: nothing is written to storage unless every step before has
    returned, and what is written then is what was prepared: ['salt'] holds
    the salt from which, with the selected session-lock token, the key was
    derived; ['state'] holds the encryption under that key of the encoded
    JSON of the store state, taken as if not optimistic and without its
    ['request'] entry; ['snapshot'] holds the encryption under the same key
    of the JSON of the crypto snapshot.  The writes are made in that order,
    and the run is the preparation followed by the first one, two or three
    of them. *)
Theorem cacheWorker_writes_what_it_prepared State Snapshot
    (imports : Imports State Snapshot) (action : AnyAction) key value result :
  In (EvSetItem key value result) (snd (run (cacheWorker imports action))) ->
  (exists hasSession,
     authentication_hasSession imports = Some hasSession
     /\ hasSession [EvWait 500 (inr tt)] = inr true)
  /\ written_as_prepared imports action (snd (run (cacheWorker imports action))).
Proof.
  intros Hin.
  assert (Hw : writes (snd (run (cacheWorker imports action))) <> []).
  { unfold writes. intros Hnil.
    assert (Hf : In (EvSetItem key value result)
                   (filter is_write (snd (run (cacheWorker imports action)))))
      by (apply filter_In; split; [exact Hin | reflexivity]).
    destruct (filter is_write (snd (run (cacheWorker imports action))));
      [destruct Hf | discriminate Hnil]. }
  destruct (cacheWorker_unwritten_or_prepared State Snapshot imports action)
    as [Hnil | Hp]; [contradiction | exact Hp].
Qed.

Example cacheWorker_state_write_rejected :
  snd (run (cacheWorker (test_imports (Some true) [js "state"]) test_action))
  = preparation (test_imports (Some true) [js "state"]) test_action
      (Some (js "lock")) (repeat x07 4) (CryptoKeyHandle 9) (js "{items,request}")
      (js "{items}") (repeat x01 7) (js "snap") (js "snap") (repeat x02 4)
    ++ [EvSetItem (js "salt") (repeat 7%N 4) (inr tt);
        EvSetItem (js "state") (repeat 1%N 7)
          (inl (Thrown (js "QuotaExceededError")))].
Proof. vm_compute. reflexivity. Qed.

Lemma cacheWorker_writes_what_it_prepared_witness :
  In (EvSetItem (js "salt") (repeat 7%N 4) (inr tt))
    (snd (run (cacheWorker (test_imports (Some true) [js "state"]) test_action)))
  /\ written_as_prepared (test_imports (Some true) [js "state"]) test_action
       (snd (run (cacheWorker (test_imports (Some true) [js "state"]) test_action))).
Proof.
  assert (Hin : In (EvSetItem (js "salt") (repeat 7%N 4) (inr tt))
                  (snd (run (cacheWorker (test_imports (Some true) [js "state"])
                               test_action))))
    by (vm_compute; do 10 right; left; reflexivity).
  split; [exact Hin |].
  exact (proj2 (cacheWorker_writes_what_it_prepared jsstring jsstring
                  (test_imports (Some true) [js "state"]) test_action
                  (js "salt") (repeat 7%N 4) (inr tt) Hin)).
Defined.

End CacheMoreProofs.

(** * Further properties of the fragment parser *)

Module ConsumeForkParametersMoreProofs.
Import Str StrFacts URLSearchParams URLSearchParamsProofs ConsumeForkParameters.
Import ConsumeForkParametersProofs.

(** [(o || '') === s] for a string [s] that is not empty. *)
Lemma or_empty_is (o : option jsstring) (s : jsstring) :
  s <> [] -> (eqb (or_empty o) s = true <-> o = Some s).
Proof.
  intros Hs. rewrite eqb_eq, or_empty_get.
  destruct o as [v |].
  - split; [intros ->; reflexivity | intros [= ->]; reflexivity].
  - split; [intros H; symmetry in H; contradiction | discriminate].
Qed.

Section Parser.
Variable FORK_TYPE : Type.
Variable getValidatedRawKey : jsstring -> option Uint8Array.
Variable getValidatedForkType : jsstring -> option FORK_TYPE.

(** X8: [persistent] and [trusted] are true exactly when the parameters [p]
    and [tr] are the string ["1"], and the version is 2 exactly when the
    parameter [v] is the string ["2"]: absent, empty or any other value
    gives false, and version 1. *)
Theorem getConsumeForkParameters_flags (location_hash : jsstring) :
  let params := hashParams location_hash in
  let result :=
    getConsumeForkParameters FORK_TYPE getValidatedRawKey getValidatedForkType
      location_hash in
  (persistent result = true <-> get params (js "p") = Some (js "1"))
  /\ (trusted result = true <-> get params (js "tr") = Some (js "1"))
  /\ (version result = Fork.V2 <-> get params (js "v") = Some (js "2"))
  /\ (version result = Fork.V1 <-> get params (js "v") <> Some (js "2")).
Proof.
  intros params result. subst result. unfold getConsumeForkParameters.
  fold params. cbn [persistent trusted version].
  assert (H1 : js "1" <> []) by discriminate.
  assert (H2 : js "2" <> []) by discriminate.
  pose proof (or_empty_is (get params (js "v")) (js "2") H2) as Hv.
  split; [apply or_empty_is; exact H1 |].
  split; [apply or_empty_is; exact H1 |].
  destruct (eqb (or_empty (get params (js "v"))) (js "2")); split; split;
    intros H; try reflexivity; try discriminate H.
  - apply Hv. reflexivity.
  - exfalso. apply H. apply Hv. reflexivity.
  - apply Hv in H. discriminate H.
  - intros H'. apply Hv in H'. discriminate H'.
Qed.

(** After a [#], the serialised form of ASCII parameters is read back. *)
Lemma hashParams_serialised (before : jsstring) (params : URLSearchParams.t) :
  forallb ascii_pair params = true ->
  hashParams (before ++ hash_sign :: toString params) = params.
Proof.
  intros H.
  rewrite hashParams_after_last_hash by (apply toString_no_hash; exact H).
  apply of_string_toString. exact H.
Qed.

(** X9: the fragment built by serialising parameters is read back: after a
    [#] that follows anything, the serialised form of ASCII names and
    values gives these parameters, so [selector] is the value of the first
    [selector] pair and [state] the first 100 code units of the value of
    the first [state] pair. *)
Theorem getConsumeForkParameters_reads_serialised (before : jsstring)
    (params : URLSearchParams.t) :
  forallb ascii_pair params = true ->
  let result :=
    getConsumeForkParameters FORK_TYPE getValidatedRawKey getValidatedForkType
      (before ++ hash_sign :: toString params) in
  hashParams (before ++ hash_sign :: toString params) = params
  /\ selector result
     = match get params (js "selector") with Some v => v | None => [] end
  /\ state result
     = match get params (js "state") with Some v => firstn 100 v | None => [] end.
Proof.
  intros H result.
  pose proof (hashParams_serialised before params H) as Hp.
  split; [exact Hp |]. subst result. unfold getConsumeForkParameters.
  rewrite Hp. cbn [selector state].
  rewrite slice_first_100, !or_empty_get.
  split; [reflexivity |]. destruct (get params (js "state")); reflexivity.
Qed.

(** X10: a fragment with no [sk] parameter, or an empty one, gives no key,
    and the validator of raw keys is not consulted; an sso payload that
    takes its selector, state, key and version from such a fragment is
    refused by [consumeFork] before any call, whatever its [localState]. *)
Theorem fragment_without_key_is_refused (location_hash : jsstring)
    imports api apiUrl localState :
  get (hashParams location_hash) (js "sk") = None
  \/ get (hashParams location_hash) (js "sk") = Some [] ->
  let result :=
    getConsumeForkParameters FORK_TYPE getValidatedRawKey getValidatedForkType
      location_hash in
  key result = None
  /\ run (Fork.consumeFork imports
            {| Fork.api := api; Fork.apiUrl := apiUrl;
               Fork.payload :=
                 Fork.Sso localState (state result) (selector result)
                   (key result) (version result) |})
     = (inl Fork.invalid_fork_state, []).
Proof.
  intros Hsk result.
  assert (Hkey : key result = None).
  { subst result. unfold getConsumeForkParameters. cbn [key].
    destruct Hsk as [-> | ->]; reflexivity. }
  split; [exact Hkey |]. rewrite Hkey.
  unfold run, Fork.consumeFork. cbn [Fork.payload].
  replace (Fork.validFork
             (Fork.Sso localState (state result) (selector result) None
                (version result))) with false; [reflexivity |].
  unfold Fork.validFork. destruct localState; reflexivity.
Qed.

(** X15: the [state] that [requestFork] makes comes back unchanged from
    [getConsumeForkParameters] when the fragment carries it as its [state]
    parameter: it is shorter than the 100 code units kept. *)
Theorem requestFork_state_survives_parsing account_href authorize random_byte
    options (before : jsstring) (params : URLSearchParams.t) :
  forallb ascii_pair params = true ->
  get params (js "state")
  = Some (RequestFork.state
            (RequestFork.requestFork account_href authorize random_byte options)) ->
  state (getConsumeForkParameters FORK_TYPE getValidatedRawKey
           getValidatedForkType (before ++ hash_sign :: toString params))
  = RequestFork.state
      (RequestFork.requestFork account_href authorize random_byte options).
Proof.
  intros H Hst. unfold getConsumeForkParameters. cbn [state].
  rewrite (hashParams_serialised before params H), Hst.
  rewrite slice_first_100, or_empty_get.
  unfold RequestFork.requestFork. cbn [RequestFork.state].
  apply firstn_all2.
  rewrite Base64Proofs.encodeBase64URL_length_32; [lia |].
  unfold RequestFork.getRandomValues. rewrite length_map, length_seq. reflexivity.
Qed.

End Parser.

Import ForkUrlScenario MoreScenarios.

Lemma requestFork_state_survives_parsing_witness :
  forallb ascii_pair echoed_params = true
  /\ state (getConsumeForkParameters unit no_key no_type
              ([] ++ hash_sign :: toString echoed_params))
     = RequestFork.state
         (RequestFork.requestFork account_href authorize random_byte options).
Proof.
  assert (H : forallb ascii_pair echoed_params = true) by (vm_compute; reflexivity).
  split; [exact H |].
  exact (requestFork_state_survives_parsing unit no_key no_type account_href
           authorize random_byte options [] echoed_params H eq_refl).
Defined.

Example getConsumeForkParameters_serialised :
  getConsumeForkParameters unit (fun s => Some []) no_type
    (js "#" ++ toString fragment_params)
  = {| state := js "x y&z"; selector := js "abc"; key := Some []; type := None;
       persistent := true; trusted := false; version := Fork.V2 |}.
Proof. vm_compute. reflexivity. Qed.

Lemma getConsumeForkParameters_reads_serialised_witness :
  forallb ascii_pair fragment_params = true
  /\ hashParams (js "#ignored" ++ hash_sign :: toString fragment_params)
     = fragment_params.
Proof.
  split; [reflexivity |].
  exact (proj1 (getConsumeForkParameters_reads_serialised unit no_key no_type
                  (js "#ignored") fragment_params eq_refl)).
Defined.

Lemma fragment_without_key_is_refused_witness :
  get (hashParams (js "#selector=abc&state=xyz")) (js "sk") = None
  /\ run (Fork.consumeFork ForkScenario.decrypts_to_pw
            {| Fork.api := ForkScenario.scenario_api; Fork.apiUrl := None;
               Fork.payload :=
                 Fork.Sso (Some (js "xyz"))
                   (state (getConsumeForkParameters unit no_key no_type
                             (js "#selector=abc&state=xyz")))
                   (selector (getConsumeForkParameters unit no_key no_type
                                (js "#selector=abc&state=xyz")))
                   (key (getConsumeForkParameters unit no_key no_type
                           (js "#selector=abc&state=xyz")))
                   (version (getConsumeForkParameters unit no_key no_type
                               (js "#selector=abc&state=xyz"))) |})
     = (inl Fork.invalid_fork_state, []).
Proof.
  split; [reflexivity |].
  exact (proj2 (fragment_without_key_is_refused unit no_key no_type
                  (js "#selector=abc&state=xyz") ForkScenario.decrypts_to_pw
                  ForkScenario.scenario_api None (Some (js "xyz"))
                  (or_introl eq_refl))).
Defined.

End ConsumeForkParametersMoreProofs.

(** * The page buttons of the mail list *)

Module ListPaginationProofs.
Import ListPagination.
#[local] Open Scope Z_scope.

(** Case analysis on the comparisons of page numbers in the goal. *)
Ltac page_cases :=
  repeat match goal with
    | |- context [Z.eqb ?a ?b] => destruct (Z.eqb_spec a b); try lia
    | |- context [Z.gtb ?a ?b] =>
        rewrite (Z.gtb_ltb a b); destruct (Z.ltb_spec b a); try lia
    end;
  cbn [existsb orb unique_from row_from app filter is_active List.length].

Ltac pages :=
  unfold row, pagesToDisplay, unique;
  cbn [unique_from existsb orb];
  repeat (page_cases; cbn [unique_from existsb orb row_from app]).

(** X12: for a current page between 1 and the number of pages, of which
    there are at least two (the list shows the row only then), the page
    buttons are in increasing order without repetition, the first is page
    1, the last is the last page, the current page is among them, and
    there are at most five. *)
Theorem pagesToDisplay_increasing (page total : Z) :
  2 <= total -> 1 <= page <= total ->
  LocallySorted Z.lt (pagesToDisplay page total)
  /\ hd_error (pagesToDisplay page total) = Some 1
  /\ last (pagesToDisplay page total) 0 = total
  /\ In page (pagesToDisplay page total)
  /\ (List.length (pagesToDisplay page total) <= 5)%nat.
Proof.
  intros Ht Hp. pages.
  all: repeat split;
    try (repeat constructor; lia);
    try (cbn [last]; lia);
    try (cbn [In]; lia);
    try (cbn [List.length]; lia);
    try reflexivity.
Qed.

(** X13: under the same conditions the row stands for every page and for
    pages only: a page number is that of a button, or lies between the two
    buttons around an ellipsis, exactly when it is between 1 and the last
    page; and exactly one button is shown as active. *)
Theorem row_covers_all_pages (page total : Z) :
  2 <= total -> 1 <= page <= total ->
  (forall n, stands_for None (row page total) n <-> 1 <= n <= total)
  /\ List.length (filter is_active (row page total)) = 1%nat.
Proof.
  intros Ht Hp. pages.
  all: split; [intros k; cbn [stands_for]; lia |].
  all: cbn [filter is_active]; page_cases; reflexivity.
Qed.

Example row_in_the_middle :
  row 5 10
  = [PageButton 1 false; Ellipsis 4; PageButton 4 false; PageButton 5 true;
     PageButton 6 false; Ellipsis 10; PageButton 10 false].
Proof. reflexivity. Qed.

Example row_at_the_ends :
  row 1 10 = [PageButton 1 true; PageButton 2 false; PageButton 3 false;
              Ellipsis 10; PageButton 10 false]
  /\ row 10 10 = [PageButton 1 false; Ellipsis 8; PageButton 8 false;
                  PageButton 9 false; PageButton 10 true]
  /\ row 2 2 = [PageButton 1 false; PageButton 2 true].
Proof. repeat split; reflexivity. Qed.

(** With a single page the first case applies and a button for page 2 is
    computed; the list does not show the row then. *)
Example pagesToDisplay_single_page : pagesToDisplay 1 1 = [1; 2].
Proof. reflexivity. Qed.

Lemma pagesToDisplay_increasing_witness :
  2 <= 10 /\ 1 <= 5 <= 10
  /\ LocallySorted Z.lt (pagesToDisplay 5 10)
  /\ In 5 (pagesToDisplay 5 10).
Proof.
  assert (H1 : 2 <= 10) by lia. assert (H2 : 1 <= 5 <= 10) by lia.
  split; [exact H1 |]. split; [exact H2 |].
  destruct (pagesToDisplay_increasing 5 10 H1 H2) as (Hs & _ & _ & Hin & _).
  split; [exact Hs | exact Hin].
Defined.

Lemma row_covers_all_pages_witness :
  2 <= 10 /\ 1 <= 5 <= 10
  /\ List.length (filter is_active (row 5 10)) = 1%nat.
Proof.
  assert (H1 : 2 <= 10) by lia. assert (H2 : 1 <= 5 <= 10) by lia.
  split; [exact H1 |]. split; [exact H2 |].
  exact (proj2 (row_covers_all_pages 5 10 H1 H2)).
Defined.

End ListPaginationProofs.

(** * The URL of a proxied domain image *)

Module ProxiedDomainImageProofs.
Import Str URLSearchParams URLSearchParamsProofs ProxiedDomainImage.
#[local] Open Scope N_scope.

Lemma plain_cons c d :
  plain (c :: d) = true
  <-> (c < 128 /\ c <> 38 /\ c <> 61 /\ c <> 43 /\ c <> 37 /\ c <> 35)
      /\ plain d = true.
Proof.
  unfold plain, is_ascii. cbn [forallb existsb].
  rewrite !andb_true_iff, negb_true_iff, !orb_false_iff, N.ltb_lt, !N.eqb_neq.
  tauto.
Qed.

Lemma plain_is_ascii d : plain d = true -> is_ascii d = true.
Proof. unfold plain. rewrite andb_true_iff. tauto. Qed.

Lemma plain_free d c :
  c = 38 \/ c = 61 \/ c = 43 \/ c = 37 \/ c = 35 ->
  plain d = true -> includes d c = false.
Proof.
  intros Hc. induction d as [| x d IH]; [reflexivity |].
  rewrite plain_cons. intros [Hx Hd]. unfold includes. cbn [existsb].
  apply orb_false_iff. split; [apply N.eqb_neq; lia | exact (IH Hd)].
Qed.

(** A plain value is read by the parser as it is. *)
Lemma decode_component_plain d : plain d = true -> decode_component d = d.
Proof.
  intros H. unfold decode_component.
  assert (E : percent_decode (map plus_to_space d) = d).
  { induction d as [| c d IH]; [reflexivity |].
    apply plain_cons in H. destruct H as [Hc Hd].
    cbn [map]. rewrite plus_to_space_other by lia.
    rewrite percent_decode_other by lia. rewrite (IH Hd). reflexivity. }
  rewrite E. apply utf8_decode_ascii, plain_is_ascii. exact H.
Qed.

(** X14: [getImageURL] gives no URL for an absent or an empty domain.  For
    a domain that is not empty, made of ASCII characters without [&], [=],
    [+], [%] and [#], and a base path without [?] and [#], the query of the
    URL it gives reads back as [Domain] with that very domain, [Size=64]
    and [Mode=light]: the domain is put in the query without any
    escaping. *)
Theorem getImageURL_query (firefox : bool) (API_URL : jsstring) (d : jsstring) :
  let basePath := if firefox then API_URL else js "api-proxy" in
  d <> [] -> plain d = true ->
  includes basePath question_mark = false ->
  includes basePath hash_sign = false ->
  getImageURL firefox API_URL None = None
  /\ getImageURL firefox API_URL (Some []) = None
  /\ exists url,
       getImageURL firefox API_URL (Some d) = Some url
       /\ option_map parse (RequestFork.url_query url)
          = Some [(js "Domain", d); (js "Size", js "64"); (js "Mode", js "light")].
Proof.
  intros basePath Hd Hplain Hq Hh.
  split; [reflexivity |]. split; [reflexivity |].
  unfold getImageURL. destruct d as [| c d]; [congruence |]. cbn [truthy].
  fold basePath. eexists. split; [reflexivity |].
  set (dom := c :: d) in *.
  unfold RequestFork.url_query.
  rewrite (split_first_absent hash_sign).
  2:{ rewrite !includes_app. repeat split; try reflexivity; try assumption.
      apply plain_free; [| exact Hplain]. unfold hash_sign. auto 6. }
  cbn [fst].
  change (js "/core/v4/images/logo?Domain=" ++ dom ++ js "&Size=64&Mode=light")
    with (js "/core/v4/images/logo"
          ++ question_mark :: js "Domain=" ++ dom ++ js "&Size=64&Mode=light").
  rewrite app_assoc.
  rewrite split_first_at
    by (apply includes_app; split; [exact Hq | reflexivity]).
  cbn [snd option_map]. f_equal. unfold parse.
  rewrite utf8_encode_ascii.
  2:{ rewrite !is_ascii_app. repeat split; try reflexivity.
      apply plain_is_ascii. exact Hplain. }
  assert (Hamp : includes (js "Domain" ++ equals_sign :: dom) ampersand = false).
  { change (js "Domain" ++ equals_sign :: dom) with (js "Domain=" ++ dom).
    apply includes_app. split; [reflexivity |].
    apply plain_free; [| exact Hplain]. unfold ampersand. auto. }
  change (js "Domain=" ++ dom ++ js "&Size=64&Mode=light")
    with ((js "Domain" ++ equals_sign :: dom)
          ++ ampersand :: js "Size=64&Mode=light").
  rewrite (split_on_app ampersand _ _ Hamp).
  cbn [flat_map]. unfold parse_sequence at 1.
  destruct (js "Domain" ++ equals_sign :: dom) as [| x l] eqn:E;
    [discriminate E |]. rewrite <- E.
  rewrite split_first_at by reflexivity.
  rewrite (decode_component_plain dom Hplain).
  reflexivity.
Qed.

(** A domain with an [&] is not read back: what follows the [&] is taken
    for another parameter. *)
Example getImageURL_ampersand :
  match getImageURL false [] (Some (js "a.example&Mode=dark")) with
  | Some url => option_map parse (RequestFork.url_query url)
  | None => None
  end
  = Some [(js "Domain", js "a.example"); (js "Mode", js "dark");
          (js "Size", js "64"); (js "Mode", js "light")].
Proof. vm_compute. reflexivity. Qed.

Lemma getImageURL_query_witness :
  js "proton.me" <> [] /\ plain (js "proton.me") = true
  /\ exists url,
       getImageURL false (js "https://pass-api.proton.me") (Some (js "proton.me"))
       = Some url
       /\ option_map parse (RequestFork.url_query url)
          = Some [(js "Domain", js "proton.me"); (js "Size", js "64");
                  (js "Mode", js "light")].
Proof.
  assert (H : js "proton.me" <> []) by discriminate.
  split; [exact H |]. split; [reflexivity |].
  exact (proj2 (proj2 (getImageURL_query false (js "https://pass-api.proton.me")
                         (js "proton.me") H eq_refl eq_refl eq_refl))).
Defined.

End ProxiedDomainImageProofs.

(** * The payload shown after a fork *)

Module AccountForkProofs.
Import AccountFork.

(** X11: the payloads of [CONFLICT] and [SUCCESS] do not depend on the
    error passed, and that of [ERROR] depends on it only through
    [error?.message ?? '']: its title is the same for every error, and an
    error that is absent or has no message gives the payload of an error
    whose message is the empty string. *)
Theorem getAccountForkResponsePayload_error_use t getWelcomeToText
    PASS_APP_NAME MAIL_APP_NAME (error1 error2 : option ErrorValue) :
  let payload := getAccountForkResponsePayload t getWelcomeToText
                   PASS_APP_NAME MAIL_APP_NAME in
  payload CONFLICT error1 = payload CONFLICT error2
  /\ payload SUCCESS error1 = payload SUCCESS error2
  /\ Payload.title (payload ERROR error1) = Payload.title (payload ERROR error2)
  /\ (additionalMessage error1 = additionalMessage error2 ->
      payload ERROR error1 = payload ERROR error2)
  /\ payload ERROR None = payload ERROR (Some {| message := Some [] |})
  /\ payload ERROR (Some {| message := None |})
     = payload ERROR (Some {| message := Some [] |}).
Proof.
  intros payload. subst payload. unfold getAccountForkResponsePayload.
  repeat split; try reflexivity. intros ->. reflexivity.
Qed.

End AccountForkProofs.
